(** * A two-stage toolchain for a fixed-width instruction set

    Shallow embedding of [script.py]: the bit-field codec
    ([extract_fields] and the packing expression of [assembler]), the
    assembler over a text listing, and the interpreter over a register
    file and the module-level memory array.

    Python integers are unbounded, so instruction words and fields are
    [Z] and the operators [&], [|], [<<], [>>] are [Z.land], [Z.lor],
    [Z.shiftl], [Z.shiftr], which agree with Python on negative numbers
    as well.  Python lists are [list Z] with the index check written
    out; dictionaries are [gmap string _]. *)

From Stdlib Require Import ZArith Lia Bool Ascii String List.
From Stdlib Require Import Strings.Byte.
From stdpp Require Import base numbers option list strings pretty gmap.

Local Open Scope Z_scope.

(** ** Instruction codec *)

Module Codec.

(** Constants for command bit masks (lines 6-8). *)
Definition COMMAND_MASK : Z := 31.
Definition REGISTER_MASK : Z := 63.
Definition ADDRESS_MASK : Z := 4294967295.

(** [extract_fields] (lines 14-21): the address field is the plain
    shift, no mask is applied to it. *)
Definition extract_fields (instruction : Z) : Z * Z * Z :=
  let A := Z.land instruction COMMAND_MASK in
  let B := Z.land (Z.shiftr instruction 5) REGISTER_MASK in
  let C := Z.shiftr instruction 11 in
  (A, B, C).

(** The packing expression of [assembler] (line 56):
    [(operand2 << 11) | (operand1 << 5) | command]. *)
Definition encode (command operand1 operand2 : Z) : Z :=
  Z.lor (Z.lor (Z.shiftl operand2 11) (Z.shiftl operand1 5)) command.

End Codec.

Import Codec.

(** ** Exceptions and the state-and-exception monad *)

(** The exceptions the two stages raise.  [ValueError] carries the
    message the source builds; [IndexError] is raised by list indexing
    and [struct_error] by [struct.pack] and [struct.unpack]. *)
Inductive exn :=
  | ValueError (msg : string)
  | FileNotFoundError
  | IndexError
  | struct_error.

(** A call either returns a value or raises; in both cases the mutable
    state it worked on is left in some state [s]. *)
Inductive outcome (S A : Type) :=
  | Returned (a : A) (s : S)
  | Raised (e : exn) (s : S).
Arguments Returned {S A} a s.
Arguments Raised {S A} e s.

(** The state a call leaves, whichever way it ended. *)
Definition state_of {S A} (o : outcome S A) : S :=
  match o with
  | Returned _ s => s
  | Raised _ s => s
  end.

Definition M (S A : Type) : Type := S -> outcome S A.

Definition ret {S A} (a : A) : M S A := fun s => Returned a s.
Definition bind {S A B} (c : M S A) (k : A -> M S B) : M S B :=
  fun s => match c s with
           | Returned a s' => k a s'
           | Raised e s' => Raised e s'
           end.
Definition gets {S A} (f : S -> A) : M S A := fun s => Returned (f s) s.
Definition modify {S} (f : S -> S) : M S unit := fun s => Returned tt (f s).

#[global] Instance M_ret {S} : MRet (M S) := @ret S.
#[global] Instance M_bind {S} : MBind (M S) := fun A B k c => bind c k.

(** Unfolds the monad down to the match on outcomes. *)
Ltac unfold_M :=
  unfold mbind, M_bind, bind, mret, M_ret, ret, gets, modify in *.

(** [for x in xs: body(x)] *)
Fixpoint for_each {S A} (body : A -> M S unit) (xs : list A) : M S unit :=
  match xs with
  | [] => ret tt
  | x :: xs' => body x ;; for_each body xs'
  end.

(** ** Python lists *)

Module PyList.

(** The position a subscript [l[i]] denotes in a list of length [len]:
    negative subscripts count from the end, anything else out of range
    is an [IndexError]. *)
Definition index (len : nat) (i : Z) : option nat :=
  if (0 <=? i) && (i <? Z.of_nat len) then Some (Z.to_nat i)
  else if (- Z.of_nat len <=? i) && (i <? 0) then Some (Z.to_nat (Z.of_nat len + i))
  else None.

Definition getitem (l : list Z) (i : Z) : option Z :=
  n ← index (length l) i; l !! n.

Definition setitem (l : list Z) (i : Z) (v : Z) : option (list Z) :=
  n ← index (length l) i; Some (<[n := v]> l).

(** [range(a, b)] *)
Definition range (a b : Z) : list Z := seqZ a (b - a).

End PyList.

(** ** Text formatting *)

Module Fmt.

Definition hex_digit (d : Z) : ascii :=
  default "0"%char (String.get (Z.to_nat d) "0123456789ABCDEF").

Fixpoint hex_go (fuel : nat) (n : Z) (acc : string) : string :=
  match fuel with
  | O => acc
  | Datatypes.S fuel' =>
      let acc' := String (hex_digit (n mod 16)) acc in
      if n / 16 =? 0 then acc' else hex_go fuel' (n / 16) acc'
  end.

(** Upper-case hexadecimal digits of a non-negative integer. *)
Definition hex (n : Z) : string := hex_go (Datatypes.S (Z.to_nat (Z.log2 n))) n "".

Fixpoint zeros (n : nat) : string :=
  match n with O => "" | Datatypes.S n' => String "0" (zeros n') end.

Definition zfill (width : nat) (s : string) : string :=
  zeros (width - String.length s) +:+ s.

(** The format specification [0wX]: sign first, then zeros up to the
    total width [w]. *)
Definition format_0X (width : nat) (z : Z) : string :=
  if z <? 0 then "-" +:+ zfill (width - 1) (hex (- z))
  else zfill width (hex z).

End Fmt.

(** ** Binary instruction stream *)

Module Struct.

Definition byte_of_Z (z : Z) : byte :=
  default "000"%byte (Byte.of_N (Z.to_N (z mod 256))).
Definition Z_of_byte (b : byte) : Z := Z.of_N (Byte.to_N b).

(** [struct.pack('I', v)], byte order taken as little-endian: a value
    outside what 32 unsigned bits hold is a [struct.error]. *)
Definition pack_I (v : Z) : option (list byte) :=
  if (0 <=? v) && (v <? 2 ^ 32)
  then Some [byte_of_Z v; byte_of_Z (Z.shiftr v 8);
             byte_of_Z (Z.shiftr v 16); byte_of_Z (Z.shiftr v 24)]
  else None.

(** [struct.unpack('I', chunk)[0]]: a buffer that is not 4 bytes long is
    a [struct.error]. *)
Definition unpack_I (chunk : list byte) : option Z :=
  match chunk with
  | [b0; b1; b2; b3] =>
      Some (Z.lor (Z.lor (Z_of_byte b0) (Z.shiftl (Z_of_byte b1) 8))
                  (Z.lor (Z.shiftl (Z_of_byte b2) 16) (Z.shiftl (Z_of_byte b3) 24)))
  | _ => None
  end.

(** The comprehension of line 95,
    [[unpack('I', data[i:i+4])[0] for i in range(0, len(data), 4)]]:
    the slices are the consecutive chunks of 4 bytes, the last one
    shorter when the length is no multiple of 4. *)
Fixpoint unpack_all (fuel : nat) (binary_data : list byte) : option (list Z) :=
  match fuel with
  | O => None
  | Datatypes.S fuel' =>
      match binary_data with
      | [] => Some []
      | _ =>
          w ← unpack_I (take 4 binary_data);
          ws ← unpack_all fuel' (drop 4 binary_data);
          Some (w :: ws)
      end
  end.

(** The fuel is one more than the number of bytes, which is more than
    the number of chunks. *)
Definition load_instructions (binary_data : list byte) : option (list Z) :=
  unpack_all (Datatypes.S (length binary_data)) binary_data.

End Struct.

(** ** Interpreter *)

Module VM.

Import PyList.

(** A value of the result document: a register entry is an integer,
    the entry [memory] is a nested mapping. *)
Inductive value :=
  | VInt (z : Z)
  | VDict (d : gmap string Z).

(** The state the instruction loop works on: the local [register] list
    and [result] dictionary, the module-level [memory] list, and the
    fields printed by line 101 for each instruction reached, in order. *)
Record vm := {
  register : list Z;
  memory : list Z;
  result : gmap string value;
  dispatched : list (Z * Z * Z)
}.

(** The module-level array of line 11, built once when the module is
    loaded. *)
Definition initial_memory : list Z := replicate 1024 0.

(** The state in which the loop of an invocation starts (lines 83-84),
    on the memory the invocation finds. *)
Definition start_state (mem : list Z) : vm :=
  {| register := replicate 64 0; memory := mem; result := ∅; dispatched := [] |}.

Definition get_register (B : Z) : M vm Z := fun st =>
  match getitem (register st) B with
  | Some v => Returned v st
  | None => Raised IndexError st
  end.

Definition set_register (B v : Z) : M vm unit := fun st =>
  match setitem (register st) B v with
  | Some r => Returned tt {| register := r; memory := memory st;
                             result := result st; dispatched := dispatched st |}
  | None => Raised IndexError st
  end.

Definition get_memory (C : Z) : M vm Z := fun st =>
  match getitem (memory st) C with
  | Some v => Returned v st
  | None => Raised IndexError st
  end.

Definition set_memory (C v : Z) : M vm unit := fun st =>
  match setitem (memory st) C v with
  | Some m => Returned tt {| register := register st; memory := m;
                             result := result st; dispatched := dispatched st |}
  | None => Raised IndexError st
  end.

Definition set_result (k : string) (v : value) : M vm unit :=
  modify (fun st => {| register := register st; memory := memory st;
                       result := <[k := v]> (result st); dispatched := dispatched st |}).

(** The state once line 101 has printed the fields [f] of the
    instruction it is about to run. *)
Definition reached (st : vm) (f : Z * Z * Z) : vm :=
  {| register := register st; memory := memory st;
     result := result st; dispatched := dispatched st ++ [f] |}.

Definition print_executing (f : Z * Z * Z) : M vm unit :=
  modify (fun st => reached st f).

(** The key [f"register_{B}"]. *)
Definition register_key (B : Z) : string := "register_" +:+ pretty B.

(** The chain of tests on the opcode (lines 102-113). *)
Definition dispatch (A B C : Z) : M vm unit :=
  if A =? 6 then set_register B C
  else if A =? 8 then v ← get_memory C; set_register B v
  else if A =? 25 then v ← get_register B; set_memory C v
  else if A =? 10 then v ← get_memory C; set_register B (- v)
  else mret tt.

(** Line 115: [result[f"register_{B}"] = register[B]]. *)
Definition record_register (B : Z) : M vm unit :=
  v ← get_register B; set_result (register_key B) (VInt v).

(** The body of the instruction loop (lines 100-115). *)
Definition exec_instr (instr : Z) : M vm unit :=
  let '(A, B, C) := extract_fields instr in
  print_executing (A, B, C) ;;
  dispatch A B C ;;
  record_register B.

(** The key [f"0x{addr:04X}"]. *)
Definition address_key (addr : Z) : string := "0x" +:+ Fmt.format_0X 4 addr.

(** The dictionary comprehension of line 118. *)
Fixpoint dump_memory (addrs : list Z) (d : gmap string Z) : M vm (gmap string Z) :=
  match addrs with
  | [] => mret d
  | addr :: addrs' =>
      v ← get_memory addr;
      dump_memory addrs' (<[address_key addr := v]> d)
  end.

(** Lines 99-118: the loop over the instructions, then the memory
    entry; the value returned is the finished [result] dictionary. *)
Definition execute (instructions : list Z) (start_address end_address : Z)
  : M vm (gmap string value) :=
  for_each exec_instr instructions ;;
  d ← dump_memory (range start_address end_address) ∅;
  set_result "memory" (VDict d) ;;
  gets result.

(** Every entry of the result dictionary is the entry of a register and
    holds the value that register has now. *)
Definition snapshot_current (st : vm) : Prop :=
  forall k val, result st !! k = Some val ->
    exists B v, 0 <= B < 64 /\ k = register_key B /\ val = VInt v /\
                register st !! Z.to_nat B = Some v.

(** What an invocation leaves behind in the process: the module-level
    memory, and the instructions it reached. *)
Record halt := {
  halt_memory : list Z;
  halt_dispatched : list (Z * Z * Z)
}.

Definition halt_of (st : vm) : halt :=
  {| halt_memory := memory st; halt_dispatched := dispatched st |}.

Definition addresses_in_range (mem : list Z) (start_address end_address : Z) : bool :=
  ((0 <=? start_address) && (start_address <? Z.of_nat (length mem))) &&
  ((0 <=? end_address) && (end_address <=? Z.of_nat (length mem))).

(** [interpreter] (lines 73-124), called on the module-level memory
    [mem].  [binary_data] is what reading [binary_input] gives, [None]
    when the file does not exist.  A returned dictionary is the document
    written to [result_output]; on a raise no result file is written. *)
Definition interpreter (mem : list Z) (binary_data : option (list byte))
    (start_address end_address : Z) : outcome halt (gmap string value) :=
  let untouched := {| halt_memory := mem; halt_dispatched := [] |} in
  if negb (addresses_in_range mem start_address end_address) then
    Raised (ValueError ("Addresses must be in range 0 to "
                        +:+ pretty (Z.of_nat (length mem) - 1))) untouched
  else
    match binary_data with
    | None => Raised FileNotFoundError untouched
    | Some [] => Raised (ValueError "Binary file is empty!") untouched
    | Some data =>
        match Struct.load_instructions data with
        | None => Raised struct_error untouched
        | Some instructions =>
            match execute instructions start_address end_address (start_state mem) with
            | Returned doc st => Returned doc (halt_of st)
            | Raised e st => Raised e (halt_of st)
            end
        end
    end.

(** One call of [interpreter] in a process. *)
Record invocation := {
  binary_data : option (list byte);
  start_address : Z;
  end_address : Z
}.

(** A process that calls [interpreter] several times in a row: each
    call works on the module-level memory as the call before left it.
    The list pairs the memory each call found with what the call did. *)
Fixpoint session (mem : list Z) (calls : list invocation)
  : list (list Z * outcome halt (gmap string value)) :=
  match calls with
  | [] => []
  | c :: calls' =>
      let o := interpreter mem (binary_data c) (start_address c) (end_address c) in
      (mem, o) :: session (halt_memory (state_of o)) calls'
  end.

End VM.

(** ** Text of a listing *)

(** Lines are strings of 8-bit characters, read as the code points
    below 256: the model covers listings whose characters are all in
    that range. *)
Module Text.

(** The line terminator [readlines] leaves at the end of a line. *)
Definition newline : string := String "010" EmptyString.

(** [str.isspace] on the code points below 256, the test [strip] and
    [split] use: tab to carriage return, the four separators 28 to 31,
    the space, and beyond ASCII the next-line character 133 and the
    no-break space 160. *)
Definition isspace (c : ascii) : bool :=
  let n := nat_of_ascii c in
  ((9 <=? n) && (n <=? 13) || (28 <=? n) && (n <=? 32) ||
   (n =? 133) || (n =? 160))%nat.

Fixpoint lstrip (s : string) : string :=
  match s with
  | String c s' => if isspace c then lstrip s' else s
  | EmptyString => EmptyString
  end.

Definition rstrip (s : string) : string := String.rev (lstrip (String.rev s)).

(** [s.strip()] *)
Definition strip (s : string) : string := rstrip (lstrip s).

(** The characters [int] drops around a numeral: it turns the spaces
    beyond ASCII (133 and 160) into blanks and then skips what C calls
    a space, tab to carriage return and the blank.  The separators 28
    to 31 are spaces for [strip] and [split] but not here. *)
Definition int_space (c : ascii) : bool :=
  let n := nat_of_ascii c in
  ((9 <=? n) && (n <=? 13) || (n =? 32) || (n =? 133) || (n =? 160))%nat.

Fixpoint int_lstrip (s : string) : string :=
  match s with
  | String c s' => if int_space c then int_lstrip s' else s
  | EmptyString => EmptyString
  end.

Definition int_strip (s : string) : string :=
  String.rev (int_lstrip (String.rev (int_lstrip s))).

Definition flush (cur : string) : list string :=
  match cur with
  | EmptyString => []
  | _ => [String.rev cur]
  end.

(** [cur] holds the characters of the token being read, last first. *)
Fixpoint split_go (cur : string) (s : string) : list string :=
  match s with
  | EmptyString => flush cur
  | String c s' =>
      if isspace c then flush cur ++ split_go EmptyString s'
      else split_go (String c cur) s'
  end.

(** [s.split()]: the maximal runs of characters that are not spaces. *)
Definition split (s : string) : list string := split_go EmptyString s.

(** The slice [s[n:]]. *)
Fixpoint slice_from (n : nat) (s : string) : string :=
  match n, s with
  | O, _ => s
  | Datatypes.S n', String _ s' => slice_from n' s'
  | Datatypes.S _, EmptyString => EmptyString
  end.

Definition hex_value (c : ascii) : option Z :=
  let n := nat_of_ascii c in
  if ((48 <=? n) && (n <=? 57))%nat then Some (Z.of_nat n - 48)
  else if ((65 <=? n) && (n <=? 70))%nat then Some (Z.of_nat n - 55)
  else if ((97 <=? n) && (n <=? 102))%nat then Some (Z.of_nat n - 87)
  else None.

(** A numeral in the plain sense: one or more of the digits [0] to
    [9], [a] to [f], [A] to [F], and nothing else. *)
Fixpoint all_hex (s : string) : bool :=
  match s with
  | EmptyString => true
  | String c s' =>
      match hex_value c with
      | Some _ => all_hex s'
      | None => false
      end
  end.

Definition hex_numeral (s : string) : bool :=
  match s with
  | EmptyString => false
  | _ => all_hex s
  end.

(** Hexadecimal digits, where single underscores may stand between two
    digits. *)
Fixpoint digits_go (s : string) (acc : Z) (after_underscore : bool) : option Z :=
  match s with
  | EmptyString => if after_underscore then None else Some acc
  | String c s' =>
      if Ascii.eqb c "_" then
        if after_underscore then None else digits_go s' acc true
      else
        match hex_value c with
        | Some d => digits_go s' (16 * acc + d) false
        | None => None
        end
  end.

Definition digits (s : string) : option Z :=
  match s with
  | EmptyString => None
  | String c _ => if Ascii.eqb c "_" then None else digits_go s 0 false
  end.

(** [int(s, 16)], [None] where Python raises [ValueError]: spaces
    around the numeral are dropped, then come an optional sign, an
    optional [0x] or [0X] which one underscore may follow, and the
    digits. *)
Definition int16 (s : string) : option Z :=
  let s := int_strip s in
  let '(sign, s) :=
    match s with
    | String c r =>
        if Ascii.eqb c "+" then (1, r)
        else if Ascii.eqb c "-" then (-1, r)
        else (1, s)
    | EmptyString => (1, s)
    end in
  let s :=
    match s with
    | String z (String x r) =>
        if Ascii.eqb z "0" && (Ascii.eqb x "x" || Ascii.eqb x "X") then
          match r with
          | String u r' => if Ascii.eqb u "_" then r' else r
          | EmptyString => r
          end
        else s
    | _ => s
    end in
  v ← digits s; Some (sign * v).

End Text.

(** ** Assembler *)

Module Asm.

Import Text.

Definition format_error (line_num : nat) (line : string) : exn :=
  ValueError ("Invalid instruction format on line " +:+ pretty (line_num + 1)%nat
              +:+ ": '" +:+ line +:+ "'").

Definition hex_error (line_num : nat) (line : string) : exn :=
  ValueError ("Invalid hex value on line " +:+ pretty (line_num + 1)%nat
              +:+ ": '" +:+ line +:+ "'").

(** The first three parts of a line, each without its first two
    characters, read as hexadecimal (lines 50-52). *)
Definition parse_parts (parts : list string) : option (Z * Z * Z) :=
  match parts with
  | p0 :: p1 :: p2 :: _ =>
      command ← int16 (slice_from 2 p0);
      operand1 ← int16 (slice_from 2 p1);
      operand2 ← int16 (slice_from 2 p2);
      Some (command, operand1, operand2)
  | _ => None
  end.

(** One turn of the loop of lines 42-59 on the line numbered
    [line_num] by [enumerate]: the line is skipped ([None]), gives an
    instruction word, or raises. *)
Definition assemble_line (line_num : nat) (line : string) : exn + option Z :=
  match strip line with
  | EmptyString => inr None
  | _ =>
      let parts := split line in
      if (length parts <? 3)%nat then inl (format_error line_num line)
      else
        match parse_parts parts with
        | Some (command, operand1, operand2) =>
            inr (Some (encode command operand1 operand2))
        | None => inl (hex_error line_num line)
        end
  end.

(** The key [f"line_{line_num + 1}"] and the rendering
    [f"0x{instruction:08X}"]. *)
Definition line_key (line_num : nat) : string := "line_" +:+ pretty (line_num + 1)%nat.
Definition render (instruction : Z) : string := "0x" +:+ Fmt.format_0X 8 instruction.

(** The loop of lines 42-59 from line [line_num] on, with the
    [instructions] and the [log] collected so far. *)
Fixpoint assemble_lines (line_num : nat) (lines : list string)
    (instructions : list Z) (log : gmap string string)
  : exn + (list Z * gmap string string) :=
  match lines with
  | [] => inr (instructions, log)
  | line :: lines' =>
      match assemble_line line_num line with
      | inl e => inl e
      | inr None => assemble_lines (Datatypes.S line_num) lines' instructions log
      | inr (Some instruction) =>
          assemble_lines (Datatypes.S line_num) lines'
            (instructions ++ [instruction])
            (<[line_key line_num := render instruction]> log)
      end
  end.

(** The loop of lines 63-64 on the open binary file, whose content so
    far is the state. *)
Definition write_instr (instr : Z) : M (list byte) unit := fun content =>
  match Struct.pack_I instr with
  | Some bs => Returned tt (content ++ bs)
  | None => Raised struct_error content
  end.

(** The two files the assembler writes; [None] is a file that has not
    been written. *)
Record outputs := {
  binary_file : option (list byte);
  log_file : option (gmap string string)
}.

Definition no_outputs : outputs := {| binary_file := None; log_file := None |}.

(** [assembler] (lines 24-70).  [lines] is what [readlines] gives on
    [input_file], [None] when the file does not exist.  Opening the
    binary file for writing empties it, and what was written before a
    raise stays in it. *)
Definition assembler (lines : option (list string)) : M outputs unit := fun out =>
  match lines with
  | None => Raised FileNotFoundError out
  | Some lines =>
      match assemble_lines 0 lines [] ∅ with
      | inl e => Raised e out
      | inr (instructions, log) =>
          match for_each write_instr instructions [] with
          | Raised e content =>
              Raised e {| binary_file := Some content; log_file := log_file out |}
          | Returned _ content =>
              Returned tt {| binary_file := Some content; log_file := Some log |}
          end
      end
  end.

(** Whether [int(_, 16)] accepts a token once its first two characters
    are dropped. *)
Definition numeral_token (tok : string) : bool :=
  match int16 (slice_from 2 tok) with
  | Some _ => true
  | None => false
  end.

(** The lines the specification calls malformed, in its words: a line
    that is not empty once stripped and has fewer than 3 tokens, or has
    a token that is no hexadecimal numeral, in the plain sense, without
    its first two characters. *)
Definition malformed_by_spec (line : string) : bool :=
  negb (String.eqb (strip line) EmptyString) &&
  ((length (split line) <? 3)%nat ||
   existsb (fun tok => negb (hex_numeral (slice_from 2 tok))) (split line)).

(** The lines the loop raises on: not empty once stripped, and with
    fewer than 3 tokens or with one of the first three tokens that
    [int(_, 16)] refuses without its first two characters. *)
Definition rejected (line : string) : bool :=
  negb (String.eqb (strip line) EmptyString) &&
  ((length (split line) <? 3)%nat ||
   existsb (fun tok => negb (numeral_token tok)) (take 3 (split line))).

(** The exception the loop raises on such a line. *)
Definition rejection (line_num : nat) (line : string) : exn :=
  if (length (split line) <? 3)%nat then format_error line_num line
  else hex_error line_num line.

End Asm.

(** ** Notions used by the further results *)

Module Chars.

(** Whether every character of a string passes a test. *)
Fixpoint all_chars (p : ascii -> bool) (s : string) : bool :=
  match s with
  | EmptyString => true
  | String c s' => p c && all_chars p s'
  end.

(** The characters [0] to [9] and [A] to [F]. *)
Definition upper_hex (c : ascii) : bool :=
  let n := nat_of_ascii c in
  ((48 <=? n) && (n <=? 57) || (65 <=? n) && (n <=? 70))%nat.

(** The characters that can occur in a string [int(_, 16)] accepts: the
    hexadecimal digits, the underscore, the two signs, [x] and [X], and
    the spaces it drops. *)
Definition tolerated (c : ascii) : bool :=
  match Text.hex_value c with
  | Some _ => true
  | None =>
      Ascii.eqb c "_" || Ascii.eqb c "+" || Ascii.eqb c "-" ||
      Ascii.eqb c "x" || Ascii.eqb c "X" || Text.int_space c
  end.

End Chars.

Module Run.

(** The opcodes that subscript the memory. *)
Definition memory_opcode (A : Z) : bool := (A =? 8) || (A =? 25) || (A =? 10).

(** An instruction that subscripts the memory at 1024 or beyond. *)
Definition out_of_bounds (instr : Z) : bool :=
  let '(A, _, C) := extract_fields instr in
  memory_opcode A && (1024 <=? C).

(** A value that fits 21 bits and a sign. *)
Definition small (v : Z) : Prop := - 2 ^ 21 < v < 2 ^ 21.

(** A state all of whose registers and memory cells hold small values. *)
Definition small_state (st : VM.vm) : Prop :=
  Forall small (VM.register st) /\ Forall small (VM.memory st).

End Run.

Module Listing.

Import Text Asm.

(** The test of line 43: a line that is empty once stripped. *)
Definition blank (line : string) : bool := String.eqb (strip line) EmptyString.

(** The three numbers a line gives (lines 46-52), when it is not blank
    and its first three parts are numerals. *)
Definition line_fields (line : string) : option (Z * Z * Z) :=
  if blank line then None else parse_parts (split line).

(** The word such a line is packed to (line 56). *)
Definition line_word (line : string) : option Z :=
  match line_fields line with
  | Some (command, operand1, operand2) => Some (encode command operand1 operand2)
  | None => None
  end.

End Listing.

(** ** The command line *)

Module Main.

Import VM Asm.

(** The namespace [parse_args] returns (lines 128-136): an option that
    was not given is [None]. *)
Record args := {
  args_input : option string;
  args_binary : option string;
  args_log : option string;
  args_start_address : option Z;
  args_end_address : option Z;
  args_binary_input : option string;
  args_result : option string
}.

(** The truth value of an option that holds a string or [None]. *)
Definition truthy (o : option string) : bool :=
  match o with
  | Some s => negb (String.eqb s EmptyString)
  | None => false
  end.

(** An option that was not given, or was given as the empty string. *)
Definition not_given (o : option string) : Prop :=
  o = None \/ o = Some EmptyString.

(** What a run of the script works on: the files as [readlines] sees
    them when the script starts, the files as bytes, the module-level
    memory, and whether the message of line 150 has been printed.  No
    listing is read after a file was written, so the first map is never
    updated.  Both maps are keyed by the file, not by the path written
    on the command line: see [file_of] below. *)
Record process := {
  listings : gmap string (list string);
  files : gmap string (list byte);
  proc_memory : list Z;
  usage_printed : bool
}.

Definition store (path : string) (content : option (list byte))
    (fs : gmap string (list byte)) : gmap string (list byte) :=
  match content with
  | Some c => <[path := c]> fs
  | None => fs
  end.

Section Script.

(** The bytes [yaml.dump] writes for a log and for a result. *)
Variable dump_log : gmap string string -> list byte.
Variable dump_result : gmap string value -> list byte.

(** The file a path names, as the file system resolves it: two paths
    name the same file exactly when they have the same value, as
    [p.bin] and [./p.bin] do. *)
Variable file_of : string -> string.

(** The call of line 141: the binary file is written first, the log
    after it. *)
Definition call_assembler (input_file binary_output log_output : string)
  : M process unit := fun p =>
  let o := assembler (listings p !! file_of input_file) no_outputs in
  let written :=
    {| listings := listings p;
       files := store (file_of log_output) (dump_log <$> log_file (state_of o))
                  (store (file_of binary_output) (binary_file (state_of o)) (files p));
       proc_memory := proc_memory p;
       usage_printed := usage_printed p |} in
  match o with
  | Returned _ _ => Returned tt written
  | Raised e _ => Raised e written
  end.

(** The call of line 146. *)
Definition call_interpreter (binary_input : string) (start_address end_address : Z)
    (result_output : string) : M process unit := fun p =>
  match interpreter (proc_memory p) (files p !! file_of binary_input)
          start_address end_address with
  | Returned doc h =>
      Returned tt {| listings := listings p;
                     files := <[file_of result_output := dump_result doc]> (files p);
                     proc_memory := halt_memory h;
                     usage_printed := usage_printed p |}
  | Raised e h =>
      Raised e {| listings := listings p; files := files p;
                  proc_memory := halt_memory h;
                  usage_printed := usage_printed p |}
  end.

Definition print_usage : M process unit :=
  modify (fun p => {| listings := listings p; files := files p;
                      proc_memory := proc_memory p; usage_printed := true |}).

(** The tests of lines 139, 144 and 149. *)
Definition wants_assembler (a : args) : bool :=
  truthy (args_input a) && truthy (args_binary a) && truthy (args_log a).

Definition wants_interpreter (a : args) : bool :=
  truthy (args_binary_input a) &&
  bool_decide (is_Some (args_start_address a)) &&
  bool_decide (is_Some (args_end_address a)) &&
  truthy (args_result a).

Definition any_path (a : args) : bool :=
  truthy (args_input a) || truthy (args_binary a) || truthy (args_log a) ||
  truthy (args_binary_input a) || truthy (args_result a).

(** [main] (lines 127-150), after the arguments are parsed. *)
Definition main (a : args) : M process unit :=
  (if wants_assembler a
   then call_assembler (default EmptyString (args_input a))
                       (default EmptyString (args_binary a))
                       (default EmptyString (args_log a))
   else mret tt) ;;
  (if wants_interpreter a
   then call_interpreter (default EmptyString (args_binary_input a))
                         (default 0 (args_start_address a))
                         (default 0 (args_end_address a))
                         (default EmptyString (args_result a))
   else mret tt) ;;
  (if negb (any_path a) then print_usage else mret tt).

End Script.

End Main.

(** ** Bit-level lemmas for the codec *)

Section CodecBits.

Lemma testbit_high a k n :
  0 <= a < 2 ^ k -> k <= n -> Z.testbit a n = false.
Proof.
  intros Ha Hn.
  assert (0 <= k) by (destruct (Z.le_gt_cases 0 k); [done|];
    rewrite Z.pow_neg_r in Ha by lia; lia).
  rewrite <- (Z.mod_small a (2 ^ k)) by lia.
  apply Z.mod_pow2_bits_high. lia.
Qed.

Lemma COMMAND_MASK_ones : COMMAND_MASK = Z.ones 5.
Proof. reflexivity. Qed.

Lemma REGISTER_MASK_ones : REGISTER_MASK = Z.ones 6.
Proof. reflexivity. Qed.

Lemma land_COMMAND_MASK a : Z.land a COMMAND_MASK = a mod 32.
Proof. rewrite COMMAND_MASK_ones, Z.land_ones by lia. reflexivity. Qed.

Lemma land_REGISTER_MASK a : Z.land a REGISTER_MASK = a mod 64.
Proof. rewrite REGISTER_MASK_ones, Z.land_ones by lia. reflexivity. Qed.

Lemma testbit_mod_pow2 a k n :
  0 <= k -> 0 <= n ->
  Z.testbit (a mod 2 ^ k) n = (n <? k) && Z.testbit a n.
Proof.
  intros Hk Hn. destruct (Z.ltb_spec n k).
  - rewrite Z.mod_pow2_bits_low by lia. reflexivity.
  - rewrite Z.mod_pow2_bits_high by lia. reflexivity.
Qed.

Lemma testbit_shiftl a k n :
  0 <= n -> Z.testbit (Z.shiftl a k) n = Z.testbit a (n - k).
Proof. intros. apply Z.shiftl_spec. assumption. Qed.

Lemma testbit_div_pow2 a k n :
  0 <= k -> 0 <= n -> Z.testbit (a / 2 ^ k) n = Z.testbit a (n + k).
Proof. intros. rewrite <- Z.shiftr_div_pow2 by lia. apply Z.shiftr_spec. lia. Qed.

(** The fields of a packed word, with no assumption on the arguments:
    whatever does not fit a field is or-ed into the fields above it. *)
Lemma extract_fields_encode_raw A B C :
  extract_fields (encode A B C) =
    (A mod 32,
     (Z.lor B (A / 32)) mod 64,
     Z.lor C (Z.lor (B / 64) (A / 2048))).
Proof.
  unfold extract_fields, encode.
  rewrite land_COMMAND_MASK, land_REGISTER_MASK.
  f_equal; [f_equal|].
  - apply Z.bits_inj'. intros n Hn.
    change 32 with (2 ^ 5).
    rewrite !testbit_mod_pow2, !Z.lor_spec, !testbit_shiftl by lia.
    destruct (Z.ltb_spec n 5); [|reflexivity].
    rewrite !(Z.testbit_neg_r _ (n - _)) by lia. reflexivity.
  - apply Z.bits_inj'. intros n Hn.
    change 64 with (2 ^ 6). change 32 with (2 ^ 5).
    rewrite !testbit_mod_pow2 by lia.
    rewrite Z.shiftr_spec, !Z.lor_spec, !testbit_shiftl by lia.
    rewrite testbit_div_pow2 by lia.
    destruct (Z.ltb_spec n 6); [|reflexivity].
    rewrite (Z.testbit_neg_r C) by lia.
    replace (n + 5 - 5) with n by lia. reflexivity.
  - apply Z.bits_inj'. intros n Hn.
    change 64 with (2 ^ 6). change 2048 with (2 ^ 11).
    rewrite Z.shiftr_spec, !Z.lor_spec, !testbit_shiftl by lia.
    rewrite !testbit_div_pow2 by lia.
    replace (n + 11 - 11) with n by lia.
    replace (n + 11 - 5) with (n + 6) by lia.
    rewrite orb_assoc. reflexivity.
Qed.

(** Packing the fields of any integer gives the integer back. *)
Lemma encode_extract_fields_raw w :
  let '(A, B, C) := extract_fields w in encode A B C = w.
Proof.
  unfold extract_fields, encode.
  rewrite land_COMMAND_MASK, land_REGISTER_MASK.
  apply Z.bits_inj'. intros n Hn.
  change 32 with (2 ^ 5). change 64 with (2 ^ 6).
  rewrite !Z.lor_spec, !testbit_shiftl by lia.
  rewrite (testbit_mod_pow2 w 5 n) by lia.
  destruct (Z.ltb_spec n 5).
  - rewrite !(Z.testbit_neg_r _ (n - _)) by lia. reflexivity.
  - destruct (Z.ltb_spec n 11).
    + rewrite (Z.testbit_neg_r _ (n - 11)) by lia.
      rewrite testbit_mod_pow2, Z.shiftr_spec by lia.
      replace (n - 5 + 5) with n by lia.
      destruct (Z.ltb_spec (n - 5) 6); [|lia].
      simpl. rewrite orb_false_r. reflexivity.
    + rewrite Z.shiftr_spec by lia.
      replace (n - 11 + 11) with n by lia.
      rewrite testbit_mod_pow2, Z.shiftr_spec by lia.
      destruct (Z.ltb_spec (n - 5) 6); [lia|].
      simpl. rewrite !orb_false_r. reflexivity.
Qed.

Lemma extract_fields_range w :
  0 <= w < 2 ^ 32 ->
  let '(A, B, C) := extract_fields w in
  0 <= A < 32 /\ 0 <= B < 64 /\ 0 <= C < 2 ^ 21.
Proof.
  intros Hw. unfold extract_fields.
  rewrite land_COMMAND_MASK, land_REGISTER_MASK.
  rewrite (Z.shiftr_div_pow2 w 11) by lia.
  split; [apply Z.mod_pos_bound; lia|].
  split; [apply Z.mod_pos_bound; lia|].
  split; [apply Z.div_pos; lia|].
  apply Z.div_lt_upper_bound; [lia|].
  change (2 ^ 11 * 2 ^ 21) with (2 ^ 32). lia.
Qed.

Lemma register_field_range w :
  0 <= (extract_fields w).1.2 < 64.
Proof.
  unfold extract_fields. simpl. rewrite land_REGISTER_MASK.
  apply Z.mod_pos_bound. lia.
Qed.

End CodecBits.

(** ** Codec theorems *)

(** C1: decoding the word packed from an opcode below 32, a register
    below 64 and an operand below 2^21 returns exactly these three
    fields. *)
Theorem C1_decode_encode_roundtrip (A B C : Z) :
  0 <= A < 32 -> 0 <= B < 64 -> 0 <= C < 2 ^ 21 ->
  extract_fields (encode A B C) = (A, B, C).
Proof.
  intros HA HB HC. rewrite extract_fields_encode_raw.
  rewrite (Z.div_small A 32), (Z.div_small B 64), (Z.div_small A 2048) by lia.
  rewrite !Z.lor_0_r.
  rewrite (Z.mod_small A 32), (Z.mod_small B 64) by lia.
  reflexivity.
Qed.

Lemma C1_decode_encode_roundtrip_witness :
  extract_fields (encode 6 3 5) = (6, 3, 5).
Proof. apply (C1_decode_encode_roundtrip 6 3 5); lia. Defined.

(** C10: for every 32-bit word, [extract_fields] returns fields in
    range whose packing is the word again, and no other triple of
    in-range fields packs to that word. *)
Theorem C10_encode_decode_bijective (w : Z) :
  0 <= w < 2 ^ 32 ->
  exists A B C,
    extract_fields w = (A, B, C) /\
    (0 <= A < 32 /\ 0 <= B < 64 /\ 0 <= C < 2 ^ 21) /\
    encode A B C = w /\
    forall A' B' C',
      0 <= A' < 32 -> 0 <= B' < 64 -> 0 <= C' < 2 ^ 21 ->
      encode A' B' C' = w -> (A', B', C') = (A, B, C).
Proof.
  intros Hw.
  pose proof (extract_fields_range w Hw) as Hr.
  pose proof (encode_extract_fields_raw w) as He.
  destruct (extract_fields w) as [[A B] C] eqn:Hf.
  exists A, B, C. repeat split; try tauto.
  intros A' B' C' HA HB HC Henc.
  rewrite <- Hf, <- Henc. symmetry.
  rewrite extract_fields_encode_raw.
  rewrite (Z.div_small A' 32), (Z.div_small B' 64), (Z.div_small A' 2048) by lia.
  rewrite !Z.lor_0_r.
  rewrite (Z.mod_small A' 32), (Z.mod_small B' 64) by lia.
  reflexivity.
Qed.

Lemma C10_encode_decode_bijective_witness :
  exists A B C,
    extract_fields 20485 = (A, B, C) /\
    (0 <= A < 32 /\ 0 <= B < 64 /\ 0 <= C < 2 ^ 21) /\
    encode A B C = 20485 /\
    forall A' B' C',
      0 <= A' < 32 -> 0 <= B' < 64 -> 0 <= C' < 2 ^ 21 ->
      encode A' B' C' = 20485 -> (A', B', C') = (A, B, C).
Proof. apply (C10_encode_decode_bijective 20485). lia. Defined.

(** C9, as stated, fails: an opcode of 32 is not reduced to 0, its
    sixth bit lands in the register field. *)
Lemma C9_encode_masks_counterexample :
  encode 32 0 0 <> encode (32 mod 32) (0 mod 64) (0 mod 2 ^ 21) /\
  extract_fields (encode 32 0 0) = (0, 1, 0).
Proof. split; [discriminate | reflexivity]. Qed.

(** C9, amended: the packing applies no mask.  For any integers the
    decoded fields of the packed word are the opcode modulo 32, the
    register or-ed with the opcode's bits from 5 up, modulo 64, and the
    operand or-ed with the register's bits from 6 up and the opcode's
    bits from 11 up: what does not fit a field spills into the fields
    above it. *)
Theorem C9_encode_spills_upwards (A B C : Z) :
  encode A B C = Z.lor (Z.lor (Z.shiftl C 11) (Z.shiftl B 5)) A /\
  extract_fields (encode A B C) =
    (A mod 32,
     (Z.lor B (Z.shiftr A 5)) mod 64,
     Z.lor C (Z.lor (Z.shiftr B 6) (Z.shiftr A 11))).
Proof.
  split; [reflexivity|].
  rewrite extract_fields_encode_raw.
  rewrite !Z.shiftr_div_pow2 by lia. reflexivity.
Qed.

(** ** Lemmas on list subscripts and on the monad *)

Import PyList VM.

Section Subscripts.

Lemma index_inside len i :
  0 <= i < Z.of_nat len -> index len i = Some (Z.to_nat i).
Proof.
  intros Hi. unfold index.
  destruct (Z.leb_spec 0 i); [|lia]. destruct (Z.ltb_spec i (Z.of_nat len)); [|lia].
  reflexivity.
Qed.

Lemma index_beyond len i : Z.of_nat len <= i -> index len i = None.
Proof.
  intros Hi. unfold index.
  destruct (Z.ltb_spec i (Z.of_nat len)); [lia|].
  destruct (Z.ltb_spec i 0); [lia|].
  rewrite !andb_false_r. reflexivity.
Qed.

Lemma getitem_inside (l : list Z) i :
  0 <= i < Z.of_nat (length l) ->
  exists v, getitem l i = Some v /\ l !! Z.to_nat i = Some v.
Proof.
  intros Hi. unfold getitem. rewrite index_inside by assumption. simpl.
  destruct (lookup_lt_is_Some_2 l (Z.to_nat i)) as [v Hv]; [lia|].
  exists v. rewrite Hv. split; reflexivity.
Qed.

Lemma getitem_beyond (l : list Z) i :
  Z.of_nat (length l) <= i -> getitem l i = None.
Proof. intros Hi. unfold getitem. rewrite index_beyond by assumption. reflexivity. Qed.

Lemma setitem_inside (l : list Z) i v :
  0 <= i < Z.of_nat (length l) ->
  setitem l i v = Some (<[Z.to_nat i := v]> l).
Proof. intros Hi. unfold setitem. rewrite index_inside by assumption. reflexivity. Qed.

Lemma setitem_beyond (l : list Z) i v :
  Z.of_nat (length l) <= i -> setitem l i v = None.
Proof. intros Hi. unfold setitem. rewrite index_beyond by assumption. reflexivity. Qed.

Lemma setitem_length (l l' : list Z) i v :
  setitem l i v = Some l' -> length l' = length l.
Proof.
  unfold setitem. destruct (index (length l) i); simpl; [|discriminate].
  intros [= <-]. apply length_insert.
Qed.

End Subscripts.

(** ** Lemmas on one instruction *)

Section Step.

Variable st : vm.

Lemma get_register_inside B :
  0 <= B < Z.of_nat (length (register st)) ->
  exists v, get_register B st = Returned v st /\ register st !! Z.to_nat B = Some v.
Proof.
  intros HB. destruct (getitem_inside _ _ HB) as (v & Hg & Hl).
  exists v. unfold get_register. rewrite Hg. auto.
Qed.

Lemma get_memory_inside C :
  0 <= C < Z.of_nat (length (memory st)) ->
  exists v, get_memory C st = Returned v st /\ memory st !! Z.to_nat C = Some v.
Proof.
  intros HC. destruct (getitem_inside _ _ HC) as (v & Hg & Hl).
  exists v. unfold get_memory. rewrite Hg. auto.
Qed.

Lemma get_memory_beyond C :
  Z.of_nat (length (memory st)) <= C -> get_memory C st = Raised IndexError st.
Proof. intros HC. unfold get_memory. rewrite getitem_beyond by assumption. reflexivity. Qed.

Lemma set_memory_beyond C v :
  Z.of_nat (length (memory st)) <= C -> set_memory C v st = Raised IndexError st.
Proof. intros HC. unfold set_memory. rewrite setitem_beyond by assumption. reflexivity. Qed.

Lemma set_register_inside B v :
  0 <= B < Z.of_nat (length (register st)) ->
  set_register B v st =
    Returned tt {| register := <[Z.to_nat B := v]> (register st); memory := memory st;
                   result := result st; dispatched := dispatched st |}.
Proof. intros HB. unfold set_register. rewrite setitem_inside by assumption. reflexivity. Qed.

Lemma set_memory_inside C v :
  0 <= C < Z.of_nat (length (memory st)) ->
  set_memory C v st =
    Returned tt {| register := register st; memory := <[Z.to_nat C := v]> (memory st);
                   result := result st; dispatched := dispatched st |}.
Proof. intros HC. unfold set_memory. rewrite setitem_inside by assumption. reflexivity. Qed.

End Step.

Lemma register_key_inj B B' : register_key B = register_key B' -> B = B'.
Proof.
  unfold register_key. intros H.
  apply (inj (String.app "register_")) in H.
  apply (inj pretty) in H. exact H.
Qed.

(** ** The body of the loop, piece by piece *)

Section Body.

Lemma exec_instr_fields (st : vm) (instr A B C : Z) :
  extract_fields instr = (A, B, C) ->
  exec_instr instr st =
    (dispatch A B C ;; record_register B) (reached st (A, B, C)).
Proof. intros Hf. unfold exec_instr. rewrite Hf. reflexivity. Qed.

Lemma record_register_inside (st : vm) (B : Z) :
  0 <= B < Z.of_nat (length (register st)) ->
  exists v, register st !! Z.to_nat B = Some v /\
    record_register B st =
      Returned tt {| register := register st; memory := memory st;
                     result := <[register_key B := VInt v]> (result st);
                     dispatched := dispatched st |}.
Proof.
  intros HB. destruct (get_register_inside st B HB) as (v & Hg & Hl).
  exists v. split; [exact Hl|]. unfold record_register. unfold_M.
  rewrite Hg. reflexivity.
Qed.

(** Line 115 returns exactly when the subscript is accepted, and then
    only the result dictionary changes. *)
Lemma record_register_returned (st st' : vm) (B : Z) :
  record_register B st = Returned tt st' ->
  exists v, getitem (register st) B = Some v /\
    st' = {| register := register st; memory := memory st;
             result := <[register_key B := VInt v]> (result st);
             dispatched := dispatched st |}.
Proof.
  unfold record_register, get_register. unfold_M.
  destruct (getitem (register st) B) as [v|]; [|discriminate].
  intros [= <-]. exists v. split; reflexivity.
Qed.

Lemma record_register_raised (st st' : vm) (B : Z) (e : exn) :
  record_register B st = Raised e st' -> e = IndexError /\ st' = st.
Proof.
  unfold record_register, get_register. unfold_M.
  destruct (getitem (register st) B) as [v|]; [discriminate|].
  intros [= <- <-]. split; reflexivity.
Qed.

(** The opcode tests touch neither the result dictionary nor the trace,
    and keep the lengths of both lists. *)
Lemma dispatch_returned (st st' : vm) (A B C : Z) :
  dispatch A B C st = Returned tt st' ->
  result st' = result st /\ dispatched st' = dispatched st /\
  length (register st') = length (register st) /\
  length (memory st') = length (memory st) /\
  (A <> 6 -> A <> 8 -> A <> 25 -> A <> 10 -> st' = st).
Proof.
  unfold dispatch, get_register, get_memory, set_register, set_memory. unfold_M.
  repeat match goal with
         | |- context [Z.eqb ?a ?b] => destruct (Z.eqb_spec a b)
         | |- context [getitem ?l ?i] => destruct (getitem l i)
         | |- context [setitem ?l ?i ?v] =>
             let H := fresh "Hset" in destruct (setitem l i v) eqn:H
         end;
    intros [= <-]; simpl;
    repeat match goal with
           | H : setitem _ _ _ = Some _ |- _ => apply setitem_length in H
           end;
    repeat split; try congruence; try lia.
Qed.

(** A raise inside the opcode tests is an [IndexError], met before
    anything was stored. *)
Lemma dispatch_raised (st st' : vm) (A B C : Z) (e : exn) :
  dispatch A B C st = Raised e st' -> e = IndexError /\ st' = st.
Proof.
  unfold dispatch, get_register, get_memory, set_register, set_memory. unfold_M.
  repeat match goal with
         | |- context [Z.eqb ?a ?b] => destruct (Z.eqb_spec a b)
         | |- context [getitem ?l ?i] => destruct (getitem l i)
         | |- context [setitem ?l ?i ?v] => destruct (setitem l i v)
         end;
    intros [= <- <-]; split; reflexivity.
Qed.

End Body.

(** ** Theorems on one instruction *)

(** C2: on a word whose fields are (A, B, C) with C inside the memory,
    the body of the loop returns, and opcode 6 stores C in register B,
    opcode 8 stores memory cell C there, opcode 25 stores register B in
    memory cell C, opcode 10 stores the negated memory cell C in
    register B; every other opcode leaves registers and memory as they
    were. *)
Theorem C2_instruction_transition (st : vm) (instr A B C : Z) :
  length (register st) = 64%nat ->
  length (memory st) = 1024%nat ->
  extract_fields instr = (A, B, C) ->
  0 <= C < 1024 ->
  exists st', exec_instr instr st = Returned tt st' /\
    (A = 6 ->
       register st' = <[Z.to_nat B := C]> (register st) /\
       register st' !! Z.to_nat B = Some C /\ memory st' = memory st) /\
    (A = 8 -> exists v,
       memory st !! Z.to_nat C = Some v /\
       register st' = <[Z.to_nat B := v]> (register st) /\
       register st' !! Z.to_nat B = Some v /\ memory st' = memory st) /\
    (A = 25 -> exists v,
       register st !! Z.to_nat B = Some v /\
       memory st' = <[Z.to_nat C := v]> (memory st) /\
       memory st' !! Z.to_nat C = Some v /\ register st' = register st) /\
    (A = 10 -> exists v,
       memory st !! Z.to_nat C = Some v /\
       register st' = <[Z.to_nat B := - v]> (register st) /\
       register st' !! Z.to_nat B = Some (- v) /\ memory st' = memory st) /\
    (A <> 6 -> A <> 8 -> A <> 25 -> A <> 10 ->
       register st' = register st /\ memory st' = memory st).
Proof.
  intros Hr Hm Hf HC.
  assert (HB : 0 <= B < 64).
  { pose proof (register_field_range instr) as H. rewrite Hf in H. exact H. }
  rewrite (exec_instr_fields st instr A B C Hf).
  set (s1 := reached st (A, B, C)).
  assert (HBr : 0 <= B < Z.of_nat (length (register s1))) by (simpl; lia).
  assert (HCm : 0 <= C < Z.of_nat (length (memory s1))) by (simpl; lia).
  destruct (get_memory_inside s1 C HCm) as (mv & Hgm & Hlm).
  destruct (get_register_inside s1 B HBr) as (rv & Hgr & Hlr).
  simpl in Hlm, Hlr.
  assert (Hrec : forall s2, length (register s2) = 64%nat ->
            exists v, record_register B s2 =
              Returned tt {| register := register s2; memory := memory s2;
                             result := <[register_key B := VInt v]> (result s2);
                             dispatched := dispatched s2 |}).
  { intros s2 H2. destruct (record_register_inside s2 B) as (v & _ & Hv); [lia|].
    exists v. exact Hv. }
  unfold dispatch.
  destruct (Z.eqb_spec A 6) as [->|H6];
    [|destruct (Z.eqb_spec A 8) as [->|H8];
      [|destruct (Z.eqb_spec A 25) as [->|H25];
        [|destruct (Z.eqb_spec A 10) as [->|H10]]]].
  - pose proof (set_register_inside s1 B C HBr) as Hs.
    edestruct Hrec as (v & Hv); [|eexists; split;
      [unfold_M; rewrite Hs; exact Hv|]]; simpl; [rewrite length_insert; lia|].
    repeat split; try lia. apply list_lookup_insert_eq. lia.
  - pose proof (set_register_inside s1 B mv HBr) as Hs.
    edestruct Hrec as (v & Hv); [|eexists; split;
      [unfold_M; rewrite Hgm, Hs; exact Hv|]]; simpl; [rewrite length_insert; lia|].
    repeat split; try lia. intros _. exists mv.
    repeat split; [exact Hlm|]. apply list_lookup_insert_eq. lia.
  - pose proof (set_memory_inside s1 C rv HCm) as Hs.
    edestruct Hrec as (v & Hv); [|eexists; split;
      [unfold_M; rewrite Hgr, Hs; exact Hv|]]; simpl; [lia|].
    repeat split; try lia. intros _. exists rv.
    repeat split; [exact Hlr|]. apply list_lookup_insert_eq. lia.
  - pose proof (set_register_inside s1 B (- mv) HBr) as Hs.
    edestruct Hrec as (v & Hv); [|eexists; split;
      [unfold_M; rewrite Hgm, Hs; exact Hv|]]; simpl; [rewrite length_insert; lia|].
    repeat split; try lia. intros _. exists mv.
    repeat split; [exact Hlm|]. apply list_lookup_insert_eq. lia.
  - edestruct (Hrec s1) as (v & Hv); [simpl; lia|].
    eexists; split; [unfold_M; exact Hv|]. simpl.
    repeat split; try lia.
Qed.

(** C4: on a word with opcode 8, 25 or 10 whose operand is 1024 or
    more, the body of the loop raises [IndexError] at the memory
    subscript, with registers, memory and result dictionary as they
    were before the instruction. *)
Theorem C4_operand_beyond_memory (st : vm) (instr A B C : Z) :
  length (register st) = 64%nat ->
  length (memory st) = 1024%nat ->
  extract_fields instr = (A, B, C) ->
  A = 8 \/ A = 25 \/ A = 10 ->
  1024 <= C ->
  exec_instr instr st = Raised IndexError (reached st (A, B, C)) /\
  register (reached st (A, B, C)) = register st /\
  memory (reached st (A, B, C)) = memory st /\
  result (reached st (A, B, C)) = result st.
Proof.
  intros Hr Hm Hf HA HC.
  assert (HB : 0 <= B < 64).
  { pose proof (register_field_range instr) as H. rewrite Hf in H. exact H. }
  split; [|repeat split].
  rewrite (exec_instr_fields st instr A B C Hf).
  set (s1 := reached st (A, B, C)).
  assert (HBr : 0 <= B < Z.of_nat (length (register s1))) by (simpl; lia).
  assert (HCm : Z.of_nat (length (memory s1)) <= C) by (simpl; lia).
  destruct (get_register_inside s1 B HBr) as (rv & Hgr & _).
  unfold dispatch. unfold_M.
  destruct HA as [-> | [-> | ->]]; simpl.
  - rewrite get_memory_beyond by exact HCm. reflexivity.
  - rewrite Hgr, set_memory_beyond by exact HCm. reflexivity.
  - rewrite get_memory_beyond by exact HCm. reflexivity.
Qed.

Lemma C2_instruction_transition_witness :
  exists st', exec_instr 10246 (start_state initial_memory) = Returned tt st' /\
    register st' !! 0%nat = Some 5 /\ memory st' = initial_memory.
Proof.
  destruct (C2_instruction_transition (start_state initial_memory) 10246 6 0 5)
    as (st' & Hex & H6 & _); [reflexivity | reflexivity | reflexivity | lia |].
  exists st'. split; [exact Hex|].
  destruct H6 as (_ & Hreg & Hmem); [reflexivity|]. split; assumption.
Defined.

Lemma C4_operand_beyond_memory_witness :
  exec_instr 4096008 (start_state initial_memory) =
    Raised IndexError (reached (start_state initial_memory) (8, 0, 2000)).
Proof.
  apply (C4_operand_beyond_memory (start_state initial_memory) 4096008 8 0 2000);
    [reflexivity | reflexivity | reflexivity | left; reflexivity | lia].
Defined.

(** ** Loading the instruction stream *)

Section Loading.

Import Struct.

Lemma unpack_all_fragment fuel (data : list byte) :
  (length data mod 4 <> 0)%nat -> unpack_all fuel data = None.
Proof.
  revert data. induction fuel as [|fuel IH]; intros data Hlen; [reflexivity|].
  destruct data as [|b0 [|b1 [|b2 [|b3 rest]]]]; try reflexivity.
  - exfalso. apply Hlen. reflexivity.
  - cbn [unpack_all take drop unpack_I]. rewrite IH; [reflexivity|].
    intros Hrest. apply Hlen.
    change (length (b0 :: b1 :: b2 :: b3 :: rest)) with (4 + length rest)%nat.
    replace (4 + length rest)%nat with (length rest + 1 * 4)%nat by lia.
    rewrite Nat.Div0.mod_add. exact Hrest.
Qed.

Lemma unpack_all_aligned fuel (data : list byte) :
  (length data < fuel)%nat -> (length data mod 4 = 0)%nat ->
  exists ws, unpack_all fuel data = Some ws /\ (4 * length ws = length data)%nat.
Proof.
  revert data. induction fuel as [|fuel IH]; intros data Hfuel Hlen; [lia|].
  destruct data as [|b0 [|b1 [|b2 [|b3 rest]]]]; try discriminate.
  - exists []. split; reflexivity.
  - destruct (IH rest) as (ws & Hws & Hl).
    + simpl in Hfuel. lia.
    + change (length (b0 :: b1 :: b2 :: b3 :: rest)) with (4 + length rest)%nat in Hlen.
      replace (4 + length rest)%nat with (length rest + 1 * 4)%nat in Hlen by lia.
      rewrite Nat.Div0.mod_add in Hlen. exact Hlen.
    + exists (Z.lor (Z.lor (Z_of_byte b0) (Z.shiftl (Z_of_byte b1) 8))
                    (Z.lor (Z.shiftl (Z_of_byte b2) 16) (Z.shiftl (Z_of_byte b3) 24))
              :: ws).
      split; [|simpl; lia].
      change (unpack_all (S fuel) (b0 :: b1 :: b2 :: b3 :: rest))
        with (w ← unpack_I [b0; b1; b2; b3];
              ws' ← unpack_all fuel rest; Some (w :: ws')).
      rewrite Hws. reflexivity.
Qed.

(** A stream whose length is no multiple of 4 gives no instruction
    list at all; any other stream gives one word per 4 bytes. *)
Lemma load_instructions_fragment (data : list byte) :
  (length data mod 4 <> 0)%nat -> load_instructions data = None.
Proof. apply unpack_all_fragment. Qed.

Lemma load_instructions_aligned (data : list byte) :
  (length data mod 4 = 0)%nat ->
  exists ws, load_instructions data = Some ws /\ (4 * length ws = length data)%nat.
Proof. apply unpack_all_aligned. lia. Qed.

End Loading.

(** ** The instruction loop keeps the shape of the machine *)

Section Shape.

Lemma exec_instr_lengths (instr : Z) (st : vm) :
  length (register (state_of (exec_instr instr st))) = length (register st) /\
  length (memory (state_of (exec_instr instr st))) = length (memory st).
Proof.
  destruct (extract_fields instr) as [[A B] C] eqn:Hf.
  rewrite (exec_instr_fields st instr A B C Hf). unfold_M.
  destruct (dispatch A B C (reached st (A, B, C))) as [[] s2|e s2] eqn:Hd.
  - apply dispatch_returned in Hd as (_ & _ & Hr & Hm & _). simpl in Hr, Hm.
    destruct (record_register B s2) as [[] s3|e s3] eqn:Hrec.
    + apply record_register_returned in Hrec as (v & _ & ->). simpl. auto.
    + apply record_register_raised in Hrec as (_ & ->). simpl. auto.
  - apply dispatch_raised in Hd as (_ & ->). simpl. auto.
Qed.

Lemma for_each_exec_lengths (instructions : list Z) (st : vm) :
  length (register (state_of (for_each exec_instr instructions st))) = length (register st) /\
  length (memory (state_of (for_each exec_instr instructions st))) = length (memory st).
Proof.
  revert st. induction instructions as [|instr rest IH]; intros st; [auto|].
  simpl. unfold_M.
  pose proof (exec_instr_lengths instr st) as [Hr Hm].
  destruct (exec_instr instr st) as [[] s1|e s1]; simpl in *.
  - destruct (IH s1) as [Hr' Hm']. split; congruence.
  - auto.
Qed.

Lemma dump_memory_state (addrs : list Z) (d : gmap string Z) (st : vm) :
  state_of (dump_memory addrs d st) = st.
Proof.
  revert d. induction addrs as [|addr rest IH]; intros d; [reflexivity|].
  simpl. unfold_M. unfold get_memory.
  destruct (getitem (memory st) addr); [apply IH | reflexivity].
Qed.

Lemma execute_memory_length (instructions : list Z) (s e : Z) (st : vm) :
  length (memory (state_of (execute instructions s e st))) = length (memory st).
Proof.
  unfold execute. unfold_M.
  pose proof (for_each_exec_lengths instructions st) as [_ Hm].
  destruct (for_each exec_instr instructions st) as [[] s1|err s1]; simpl in *; [|exact Hm].
  pose proof (dump_memory_state (range s e) ∅ s1) as Hd.
  destruct (dump_memory (range s e) ∅ s1) as [d s2|err s2]; simpl in Hd; subst s2;
    simpl; exact Hm.
Qed.

Lemma interpreter_memory_length (mem : list Z) (data : option (list byte)) (s e : Z) :
  length (halt_memory (state_of (interpreter mem data s e))) = length mem.
Proof.
  unfold interpreter.
  destruct (addresses_in_range mem s e); simpl; [|reflexivity].
  destruct data as [[|b data]|]; try reflexivity.
  destruct (Struct.load_instructions (b :: data)) as [instructions|]; [|reflexivity].
  pose proof (execute_memory_length instructions s e (start_state mem)) as H.
  destruct (execute instructions s e (start_state mem)); simpl in *; exact H.
Qed.

End Shape.

(** ** Theorems on an invocation *)

(** C6: on a binary input whose length is no multiple of 4 the
    interpreter raises before the loop: no instruction list is built,
    no instruction is reached, the memory is as the call found it and
    no result is written; when the dump range is accepted, the
    exception is the [struct.error] of the short last chunk. *)
Theorem C6_misaligned_input_rejected (mem : list Z) (data : list byte) (s e : Z) :
  (length data mod 4 <> 0)%nat ->
  Struct.load_instructions data = None /\
  exists err,
    interpreter mem (Some data) s e =
      Raised err {| halt_memory := mem; halt_dispatched := [] |} /\
    (addresses_in_range mem s e = true -> err = struct_error).
Proof.
  intros Hlen.
  pose proof (load_instructions_fragment data Hlen) as Hload.
  split; [exact Hload|].
  unfold interpreter.
  destruct (addresses_in_range mem s e); simpl.
  - destruct data as [|b data]; [exfalso; apply Hlen; reflexivity|].
    rewrite Hload. eexists. split; [reflexivity|]. reflexivity.
  - eexists. split; [reflexivity|]. discriminate.
Qed.

Lemma C6_misaligned_input_rejected_witness :
  interpreter initial_memory
    (Some [x06; x28; x00; x00; x19; x50]%byte) 0 4 =
  Raised struct_error {| halt_memory := initial_memory; halt_dispatched := [] |}.
Proof.
  destruct (C6_misaligned_input_rejected initial_memory
              [x06; x28; x00; x00; x19; x50]%byte 0 4)
    as (_ & err & Hint & Herr); [discriminate|].
  rewrite Hint, Herr; reflexivity.
Defined.

(** C8: with a start address outside [0, 1024) or an end address
    outside [0, 1024] the interpreter raises its range [ValueError]
    whatever the binary input is, also when it is missing; no
    instruction is reached and the memory is as the call found it. *)
Theorem C8_dump_range_checked_first
    (mem : list Z) (data : option (list byte)) (s e : Z) :
  length mem = 1024%nat ->
  ~ (0 <= s < 1024) \/ ~ (0 <= e <= 1024) ->
  interpreter mem data s e =
    Raised (ValueError "Addresses must be in range 0 to 1023")
           {| halt_memory := mem; halt_dispatched := [] |}.
Proof.
  intros Hlen Hout. unfold interpreter, addresses_in_range. rewrite Hlen.
  assert (Hr : (0 <=? s) && (s <? Z.of_nat 1024) && ((0 <=? e) && (e <=? Z.of_nat 1024))
               = false).
  { change (Z.of_nat 1024) with 1024.
    destruct (Z.leb_spec 0 s), (Z.ltb_spec s 1024), (Z.leb_spec 0 e),
      (Z.leb_spec e 1024); try reflexivity. lia. }
  rewrite Hr. reflexivity.
Qed.

Lemma C8_dump_range_checked_first_witness :
  interpreter initial_memory (Some [x06; x28; x00; x00]%byte) 1020 2000 =
    Raised (ValueError "Addresses must be in range 0 to 1023")
           {| halt_memory := initial_memory; halt_dispatched := [] |}.
Proof.
  apply (C8_dump_range_checked_first initial_memory _ 1020 2000);
    [reflexivity | right; lia].
Defined.

(** ** Packing and unpacking a word *)

Section PackUnpack.

Import Struct.

Lemma Z_of_byte_of_Z (z : Z) : Z_of_byte (byte_of_Z z) = z mod 256.
Proof.
  unfold Z_of_byte, byte_of_Z.
  pose proof (Z.mod_pos_bound z 256 ltac:(lia)) as Hb.
  destruct (Byte.of_N (Z.to_N (z mod 256))) as [b|] eqn:Hof; simpl.
  - apply Byte.to_of_N in Hof. rewrite Hof. apply Z2N.id. lia.
  - apply Byte.of_N_None_iff in Hof. lia.
Qed.

Lemma unpack_I_pack_I (w : Z) :
  0 <= w < 2 ^ 32 ->
  exists bs, pack_I w = Some bs /\ length bs = 4%nat /\ unpack_I bs = Some w.
Proof.
  intros Hw. unfold pack_I.
  destruct (Z.leb_spec 0 w); [|lia]. destruct (Z.ltb_spec w (2 ^ 32)); [|lia].
  eexists. split; [reflexivity|]. split; [reflexivity|].
  unfold unpack_I. f_equal. rewrite !Z_of_byte_of_Z.
  apply Z.bits_inj'. intros n Hn.
  change 256 with (2 ^ 8).
  rewrite !Z.lor_spec, !testbit_shiftl by lia.
  rewrite (testbit_mod_pow2 w 8 n) by lia.
  destruct (Z.ltb_spec n 8).
  { rewrite !(Z.testbit_neg_r _ (n - _)) by lia. simpl.
    rewrite !orb_false_r. reflexivity. }
  rewrite testbit_mod_pow2, Z.shiftr_spec by lia.
  replace (n - 8 + 8) with n by lia.
  destruct (Z.ltb_spec (n - 8) 8).
  { rewrite !(Z.testbit_neg_r _ (n - _)) by lia. simpl.
    rewrite !orb_false_r. reflexivity. }
  rewrite testbit_mod_pow2, Z.shiftr_spec by lia.
  replace (n - 16 + 16) with n by lia.
  destruct (Z.ltb_spec (n - 16) 8).
  { rewrite !(Z.testbit_neg_r _ (n - _)) by lia. simpl.
    rewrite !orb_false_r. reflexivity. }
  rewrite testbit_mod_pow2, Z.shiftr_spec by lia.
  replace (n - 24 + 24) with n by lia.
  destruct (Z.ltb_spec (n - 24) 8); simpl; [reflexivity|].
  symmetry. apply (testbit_high w 32); lia.
Qed.

End PackUnpack.

(** ** Invocations in one process *)

Section Process.

Lemma addresses_in_range_spec (mem : list Z) (s e : Z) :
  addresses_in_range mem s e = true <->
  0 <= s < Z.of_nat (length mem) /\ 0 <= e <= Z.of_nat (length mem).
Proof.
  unfold addresses_in_range.
  rewrite !andb_true_iff, !Z.leb_le, !Z.ltb_lt. tauto.
Qed.

Lemma dump_memory_inside (addrs : list Z) (d : gmap string Z) (st : vm) :
  (forall a, a ∈ addrs -> 0 <= a < Z.of_nat (length (memory st))) ->
  exists d', dump_memory addrs d st = Returned d' st.
Proof.
  revert d. induction addrs as [|addr rest IH]; intros d Hin.
  - exists d. reflexivity.
  - destruct (get_memory_inside st addr) as (v & Hg & _).
    { apply Hin. left. }
    destruct (IH (<[address_key addr := v]> d)) as (d' & Hd').
    { intros a Ha. apply Hin. right. exact Ha. }
    exists d'. simpl. unfold_M. rewrite Hg. exact Hd'.
Qed.

Lemma register_key_not_memory (B : Z) : register_key B <> "memory"%string.
Proof. unfold register_key. discriminate. Qed.

(** The registers of an invocation are fresh, and this shows in its
    result: a stream of one instruction with an unrecognised opcode
    reports the value 0 for its register, whatever the memory holds. *)
Lemma interpreter_reports_fresh_register (mem : list Z) (w A B C s e : Z) :
  length mem = 1024%nat ->
  0 <= w < 2 ^ 32 ->
  extract_fields w = (A, B, C) ->
  A <> 6 -> A <> 8 -> A <> 25 -> A <> 10 ->
  addresses_in_range mem s e = true ->
  exists bs doc,
    Struct.pack_I w = Some bs /\
    interpreter mem (Some bs) s e =
      Returned doc {| halt_memory := mem; halt_dispatched := [(A, B, C)] |} /\
    doc !! register_key B = Some (VInt 0).
Proof.
  intros Hlen Hw Hf H6 H8 H25 H10 Hrange.
  assert (HB : 0 <= B < 64).
  { pose proof (register_field_range w) as H. rewrite Hf in H. exact H. }
  destruct (unpack_I_pack_I w Hw) as (bs & Hpack & Hbs & Hunpack).
  destruct bs as [|b0 [|b1 [|b2 [|b3 [|]]]]]; try discriminate.
  assert (Hload : Struct.load_instructions [b0; b1; b2; b3] = Some [w]).
  { unfold Struct.load_instructions.
    change (Struct.unpack_all (S (length [b0; b1; b2; b3])) [b0; b1; b2; b3])
      with (x ← Struct.unpack_I [b0; b1; b2; b3]; Some [x]).
    rewrite Hunpack. reflexivity. }
  set (s1 := {| register := replicate 64 0; memory := mem;
                result := {[ register_key B := VInt 0 ]};
                dispatched := [(A, B, C)] |}).
  assert (Hstep : exec_instr w (start_state mem) = Returned tt s1).
  { rewrite (exec_instr_fields _ w A B C Hf). unfold dispatch.
    destruct (Z.eqb_spec A 6); [lia|]. destruct (Z.eqb_spec A 8); [lia|].
    destruct (Z.eqb_spec A 25); [lia|]. destruct (Z.eqb_spec A 10); [lia|].
    destruct (record_register_inside (reached (start_state mem) (A, B, C)) B)
      as (v & Hv & Hrec); [simpl; lia|].
    cbn [register reached start_state] in Hv.
    apply lookup_replicate in Hv as [-> _].
    unfold_M. rewrite Hrec. reflexivity. }
  destruct (dump_memory_inside (range s e) ∅ s1) as (d & Hd).
  { intros a Ha. unfold range in Ha. apply elem_of_seqZ in Ha.
    apply addresses_in_range_spec in Hrange. simpl. lia. }
  exists [b0; b1; b2; b3]. eexists. split; [exact Hpack|].
  unfold interpreter. rewrite Hrange. simpl negb. cbv iota.
  rewrite Hload. unfold execute. unfold_M. simpl for_each. unfold_M.
  rewrite Hstep, Hd. unfold set_result. unfold_M. simpl.
  split; [reflexivity|].
  rewrite lookup_insert_ne by (apply not_eq_sym, register_key_not_memory).
  apply lookup_singleton_eq.
Qed.

Lemma session_lookup (calls : list invocation) (mem0 : list Z) (k : nat)
    (mem : list Z) (o : outcome halt (gmap string value)) :
  session mem0 calls !! k = Some (mem, o) ->
  exists c, calls !! k = Some c /\
    o = interpreter mem (binary_data c) (start_address c) (end_address c).
Proof.
  revert mem0 k. induction calls as [|c calls IH]; intros mem0 k Hk; [discriminate|].
  destruct k as [|k]; simpl in Hk.
  - injection Hk as <- <-. exists c. split; reflexivity.
  - apply IH in Hk. exact Hk.
Qed.

Lemma session_first (calls : list invocation) (mem0 mem : list Z)
    (o : outcome halt (gmap string value)) :
  session mem0 calls !! 0%nat = Some (mem, o) -> mem = mem0.
Proof. destruct calls; [discriminate|]. simpl. intros [= <- _]. reflexivity. Qed.

Lemma session_next (calls : list invocation) (mem0 : list Z) (k : nat)
    (mem mem' : list Z) (o o' : outcome halt (gmap string value)) :
  session mem0 calls !! k = Some (mem, o) ->
  session mem0 calls !! S k = Some (mem', o') ->
  mem' = halt_memory (state_of o).
Proof.
  revert mem0 k. induction calls as [|c calls IH]; intros mem0 k Hk Hk'; [discriminate|].
  destruct k as [|k]; simpl in Hk, Hk'.
  - injection Hk as <- <-. apply session_first in Hk'. exact Hk'.
  - exact (IH _ _ Hk Hk').
Qed.

Lemma session_memory_length (calls : list invocation) (mem0 : list Z) (k : nat)
    (mem : list Z) (o : outcome halt (gmap string value)) :
  session mem0 calls !! k = Some (mem, o) -> length mem = length mem0.
Proof.
  revert mem0 k. induction calls as [|c calls IH]; intros mem0 k Hk; [discriminate|].
  destruct k as [|k]; simpl in Hk.
  - injection Hk as <- _. reflexivity.
  - apply IH in Hk. rewrite Hk. apply interpreter_memory_length.
Qed.

End Process.

(** ** Theorems on the lifetime of registers and memory *)

(** C3, as stated, fails: the memory is the module-level list, so a
    second invocation in the same process finds what the first one
    wrote.  The first stream loads 5 into register 0 and stores it in
    cell 10; the second reads cell 10 into register 1 and reports 5. *)
Lemma C3_memory_outlives_invocation_counterexample :
  let first := interpreter initial_memory
                 (Some [x06; x28; x00; x00; x19; x50; x00; x00]%byte) 0 1 in
  let found := halt_memory (state_of first) in
  let second := interpreter found (Some [x28; x50; x00; x00]%byte) 0 1 in
  session initial_memory
    [ {| binary_data := Some [x06; x28; x00; x00; x19; x50; x00; x00]%byte;
         start_address := 0; end_address := 1 |};
      {| binary_data := Some [x28; x50; x00; x00]%byte;
         start_address := 0; end_address := 1 |} ]
    = [(initial_memory, first); (found, second)] /\
  found !! 10%nat = Some 5 /\
  found <> replicate 1024 0 /\
  match second with
  | Returned doc _ => doc !! register_key 1
  | Raised _ _ => None
  end = Some (VInt 5).
Proof.
  intros first found second.
  assert (H10 : found !! 10%nat = Some 5) by (vm_compute; reflexivity).
  split; [reflexivity|]. split; [exact H10|]. split.
  - intros Heq. rewrite Heq in H10. vm_compute in H10. discriminate.
  - vm_compute. reflexivity.
Qed.

(** C3, amended: in a process that calls the interpreter any number of
    times, every call starts its loop with 64 registers that are all
    zero, and a one-instruction stream with an unrecognised opcode
    shows it by reporting 0 for its register.  The memory has 1024
    cells throughout; it is all zero for the first call, and every
    later call works on the memory as the call before it left it. *)
Theorem C3_registers_fresh_memory_carried
    (calls : list invocation) (k : nat) (mem : list Z)
    (o : outcome halt (gmap string value)) :
  session initial_memory calls !! k = Some (mem, o) ->
  (exists c, calls !! k = Some c /\
     o = interpreter mem (binary_data c) (start_address c) (end_address c)) /\
  register (start_state mem) = replicate 64 0 /\
  memory (start_state mem) = mem /\
  (forall w A B C s e,
     0 <= w < 2 ^ 32 -> extract_fields w = (A, B, C) ->
     A <> 6 -> A <> 8 -> A <> 25 -> A <> 10 ->
     addresses_in_range mem s e = true ->
     exists bs doc,
       Struct.pack_I w = Some bs /\
       interpreter mem (Some bs) s e =
         Returned doc {| halt_memory := mem; halt_dispatched := [(A, B, C)] |} /\
       doc !! register_key B = Some (VInt 0)) /\
  length mem = 1024%nat /\
  (k = 0%nat -> mem = replicate 1024 0) /\
  (forall mem' o', session initial_memory calls !! S k = Some (mem', o') ->
     mem' = halt_memory (state_of o)).
Proof.
  intros Hk.
  assert (Hlen : length mem = 1024%nat).
  { rewrite (session_memory_length _ _ _ _ _ Hk). reflexivity. }
  split; [exact (session_lookup _ _ _ _ _ Hk)|].
  split; [reflexivity|]. split; [reflexivity|].
  split.
  { intros w A B C s e Hw Hf H6 H8 H25 H10 Hr.
    exact (interpreter_reports_fresh_register mem w A B C s e Hlen Hw Hf H6 H8 H25 H10 Hr). }
  split; [exact Hlen|]. split.
  - intros ->. apply session_first in Hk. exact Hk.
  - intros mem' o' Hk'. exact (session_next _ _ _ _ _ _ _ Hk Hk').
Qed.

Lemma C3_registers_fresh_memory_carried_witness :
  length (halt_memory (state_of
    (interpreter initial_memory (Some [x06; x28; x00; x00; x19; x50; x00; x00]%byte) 0 1)))
  = 1024%nat.
Proof.
  set (c1 := {| binary_data := Some [x06; x28; x00; x00; x19; x50; x00; x00]%byte;
                start_address := 0; end_address := 1 |}).
  set (c2 := {| binary_data := Some [x28; x50; x00; x00]%byte;
                start_address := 0; end_address := 1 |}).
  destruct (C3_registers_fresh_memory_carried [c1; c2] 1
              (halt_memory (state_of (interpreter initial_memory (binary_data c1) 0 1)))
              (interpreter
                 (halt_memory (state_of (interpreter initial_memory (binary_data c1) 0 1)))
                 (binary_data c2) 0 1))
    as (_ & _ & _ & _ & Hlen & _); [reflexivity|].
  exact Hlen.
Defined.

(** ** The assembler loop *)

Import Text Asm.

Section Listing.

Lemma parse_parts_none (parts : list string) :
  (3 <= length parts)%nat ->
  parse_parts parts = None <->
  existsb (fun tok => negb (numeral_token tok)) (take 3 parts) = true.
Proof.
  intros Hlen.
  destruct parts as [|p0 [|p1 [|p2 rest]]]; simpl in Hlen; try lia.
  change (take 3 (p0 :: p1 :: p2 :: rest)) with [p0; p1; p2].
  cbn [parse_parts existsb]. unfold numeral_token.
  destruct (int16 (slice_from 2 p0)) as [a|];
    destruct (int16 (slice_from 2 p1)) as [b|];
    destruct (int16 (slice_from 2 p2)) as [c|]; cbn; split; congruence.
Qed.

Lemma assemble_line_rejected (line_num : nat) (line : string) :
  rejected line = true ->
  assemble_line line_num line = inl (rejection line_num line).
Proof.
  unfold rejected, assemble_line, rejection.
  destruct (strip line) as [|c s]; [discriminate|]. cbn [String.eqb negb andb].
  destruct (Nat.ltb_spec (length (split line)) 3) as [Hlt|Hge]; [reflexivity|].
  cbn [orb]. intros Hex.
  apply (parse_parts_none _ Hge) in Hex. rewrite Hex. reflexivity.
Qed.

Lemma assemble_line_accepted (line_num : nat) (line : string) :
  rejected line = false ->
  exists r, assemble_line line_num line = inr r.
Proof.
  unfold rejected, assemble_line.
  destruct (strip line) as [|c s]; [eexists; reflexivity|]. cbn [String.eqb negb andb].
  destruct (Nat.ltb_spec (length (split line)) 3) as [Hlt|Hge]; [discriminate|].
  cbn [orb]. intros Hex.
  destruct (parse_parts (split line)) as [[[a b] c']|] eqn:Hp; [eexists; reflexivity|].
  apply (parse_parts_none _ Hge) in Hp. congruence.
Qed.

Lemma assemble_lines_rejected (lines : list string) (line_num : nat)
    (instructions : list Z) (log : gmap string string) :
  (exists line, line ∈ lines /\ rejected line = true) ->
  exists k line,
    lines !! k = Some line /\ rejected line = true /\
    (forall j l, (j < k)%nat -> lines !! j = Some l -> rejected l = false) /\
    assemble_lines line_num lines instructions log =
      inl (rejection (line_num + k) line).
Proof.
  revert line_num instructions log.
  induction lines as [|line rest IH]; intros line_num instructions log (bad & Hin & Hbad).
  - inversion Hin.
  - destruct (rejected line) eqn:Hline.
    + exists 0%nat, line. split; [reflexivity|]. split; [exact Hline|].
      split; [intros j l Hj; lia|].
      cbn [assemble_lines]. rewrite (assemble_line_rejected line_num line Hline).
      rewrite Nat.add_0_r. reflexivity.
    + assert (Hrest : exists l, l ∈ rest /\ rejected l = true).
      { apply elem_of_cons in Hin as [->|Hin]; [congruence|]. exists bad. auto. }
      destruct (assemble_line_accepted line_num line Hline) as (r & Hr).
      cbn [assemble_lines]. rewrite Hr.
      destruct r as [instruction|].
      * destruct (IH (S line_num) (instructions ++ [instruction])
                    (<[line_key line_num := render instruction]> log) Hrest)
          as (k & l & Hk & Hl & Hfirst & Hasm).
        exists (S k), l. split; [exact Hk|]. split; [exact Hl|]. split.
        { intros [|j] l' Hj Hl'; [simpl in Hl'; congruence|].
          apply (Hfirst j l'); [lia | exact Hl']. }
        rewrite Hasm. f_equal. f_equal. lia.
      * destruct (IH (S line_num) instructions log Hrest)
          as (k & l & Hk & Hl & Hfirst & Hasm).
        exists (S k), l. split; [exact Hk|]. split; [exact Hl|]. split.
        { intros [|j] l' Hj Hl'; [simpl in Hl'; congruence|].
          apply (Hfirst j l'); [lia | exact Hl']. }
        rewrite Hasm. f_equal. f_equal. lia.
Qed.

(** A listing without a rejected line gets through the loop. *)
Lemma assemble_lines_accepted (lines : list string) (line_num : nat)
    (instructions : list Z) (log : gmap string string) :
  (forall line, line ∈ lines -> rejected line = false) ->
  exists r, assemble_lines line_num lines instructions log = inr r.
Proof.
  revert line_num instructions log.
  induction lines as [|line rest IH]; intros line_num instructions log Hall.
  - eexists. reflexivity.
  - destruct (assemble_line_accepted line_num line) as (r & Hr).
    { apply Hall. left. }
    cbn [assemble_lines]. rewrite Hr.
    destruct r as [instruction|]; apply IH; intros l Hl; apply Hall; right; exact Hl.
Qed.

End Listing.

(** ** The snapshot at the end of a run *)

Section Snapshot.

Lemma setitem_nonneg (l l' : list Z) (i v : Z) :
  0 <= i -> setitem l i v = Some l' -> l' = <[Z.to_nat i := v]> l.
Proof.
  intros Hi. unfold setitem, index.
  destruct (Z.leb_spec 0 i); [|lia].
  destruct (Z.ltb_spec i (Z.of_nat (length l))); simpl.
  - intros [= <-]. reflexivity.
  - destruct (Z.ltb_spec i 0); [lia|]. rewrite andb_false_r. discriminate.
Qed.

Lemma getitem_nonneg (l : list Z) (i v : Z) :
  0 <= i -> getitem l i = Some v -> l !! Z.to_nat i = Some v.
Proof.
  intros Hi. unfold getitem, index.
  destruct (Z.leb_spec 0 i); [|lia].
  destruct (Z.ltb_spec i (Z.of_nat (length l))); simpl.
  - auto.
  - destruct (Z.ltb_spec i 0); [lia|]. rewrite andb_false_r. discriminate.
Qed.

(** The opcode tests store into no register but the one of the
    instruction. *)
Lemma dispatch_other_registers (st st' : vm) (A B C : Z) (n : nat) :
  0 <= B -> n <> Z.to_nat B ->
  dispatch A B C st = Returned tt st' ->
  register st' !! n = register st !! n.
Proof.
  intros HB Hn.
  unfold dispatch, get_register, get_memory, set_register, set_memory. unfold_M.
  repeat match goal with
         | |- context [Z.eqb ?a ?b] => destruct (Z.eqb_spec a b)
         | |- context [getitem ?l ?i] => destruct (getitem l i)
         | |- context [setitem ?l ?i ?v] =>
             let H := fresh "Hset" in destruct (setitem l i v) eqn:H
         end;
    intros [= <-]; simpl; try reflexivity;
    match goal with
    | H : setitem (register _) _ _ = Some _ |- _ =>
        apply (setitem_nonneg _ _ _ _ HB) in H; subst;
        apply list_lookup_insert_ne; congruence
    end.
Qed.

Lemma exec_instr_snapshot (st st' : vm) (instr : Z) :
  snapshot_current st ->
  exec_instr instr st = Returned tt st' ->
  snapshot_current st' /\
  is_Some (result st' !! register_key (extract_fields instr).1.2) /\
  (forall k, is_Some (result st !! k) -> is_Some (result st' !! k)).
Proof.
  intros Hinv Hex.
  pose proof (register_field_range instr) as HB.
  destruct (extract_fields instr) as [[A B] C] eqn:Hf. simpl in HB |- *.
  rewrite (exec_instr_fields st instr A B C Hf) in Hex. unfold_M.
  destruct (dispatch A B C (reached st (A, B, C))) as [[] s2|e s2] eqn:Hd;
    [|discriminate].
  apply record_register_returned in Hex as (v & Hg & ->).
  pose proof (dispatch_returned _ _ _ _ _ Hd) as (Hres & _).
  apply getitem_nonneg in Hg; [|lia].
  split; [|split].
  - intros k val. simpl. rewrite Hres. simpl.
    destruct (decide (k = register_key B)) as [->|Hk].
    + rewrite lookup_insert_eq. intros [= <-]. exists B, v. auto.
    + rewrite lookup_insert_ne by congruence. intros Hold.
      destruct (Hinv k val Hold) as (B' & v' & HB' & -> & -> & Hv').
      exists B', v'. repeat split; try lia.
      assert (Hne : Z.to_nat B' <> Z.to_nat B).
      { intros Heq. apply Hk. f_equal. lia. }
      assert (H0B : 0 <= B) by lia.
      rewrite (dispatch_other_registers _ _ A B C (Z.to_nat B') H0B Hne Hd).
      exact Hv'.
  - simpl. rewrite lookup_insert_eq. eauto.
  - intros k Hk. simpl. rewrite Hres. simpl.
    destruct (decide (k = register_key B)) as [->|Hne].
    + rewrite lookup_insert_eq. eauto.
    + rewrite lookup_insert_ne by congruence. exact Hk.
Qed.

(** When the loop is through, the result dictionary has an entry for
    the register of every instruction, and each entry holds the final
    value of its register: the last write wins. *)
Lemma for_each_snapshot (instructions : list Z) (st st' : vm) :
  snapshot_current st ->
  for_each exec_instr instructions st = Returned tt st' ->
  snapshot_current st' /\
  (forall k, is_Some (result st !! k) -> is_Some (result st' !! k)) /\
  (forall instr, instr ∈ instructions ->
     is_Some (result st' !! register_key (extract_fields instr).1.2)).
Proof.
  revert st. induction instructions as [|instr rest IH]; intros st Hinv Hrun.
  - injection Hrun as <-. split; [exact Hinv|]. split; [auto|].
    intros instr Hin. inversion Hin.
  - simpl in Hrun. unfold_M.
    destruct (exec_instr instr st) as [[] s1|e s1] eqn:Hex; [|discriminate].
    destruct (exec_instr_snapshot _ _ _ Hinv Hex) as (Hinv1 & Hkey & Hmono).
    destruct (IH s1 Hinv1 Hrun) as (Hinv' & Hmono' & Hall).
    split; [exact Hinv'|]. split; [auto|].
    intros i Hin. apply elem_of_cons in Hin as [->|Hin]; auto.
Qed.

Lemma snapshot_after_run (mem : list Z) (instructions : list Z) (st : vm) :
  for_each exec_instr instructions (start_state mem) = Returned tt st ->
  forall instr A B C, instr ∈ instructions -> extract_fields instr = (A, B, C) ->
    exists v, result st !! register_key B = Some (VInt v) /\
              register st !! Z.to_nat B = Some v.
Proof.
  intros Hrun instr A B C Hin Hf.
  destruct (for_each_snapshot instructions (start_state mem) st) as (Hinv & _ & Hall);
    [intros k val Hk; cbn [result start_state] in Hk;
     rewrite lookup_empty in Hk; discriminate | exact Hrun |].
  specialize (Hall instr Hin). rewrite Hf in Hall. simpl in Hall.
  destruct Hall as (val & Hval).
  destruct (Hinv _ _ Hval) as (B' & v & _ & Hkey & -> & Hv).
  apply register_key_inj in Hkey as <-. exists v. auto.
Qed.

End Snapshot.

(** ** Worked examples *)

Section Examples.

(** The two-line listing: its words, and their fields. *)
Example assemble_two_lines :
  assembler (Some ["0x06 0x00 0x05" +:+ newline; "0x19 0x00 0x0A" +:+ newline]) no_outputs =
    Returned tt
      {| binary_file := Some [x06; x28; x00; x00; x19; x50; x00; x00]%byte;
         log_file := Some {[ "line_1"%string := "0x00002806"%string;
                             "line_2"%string := "0x00005019"%string ]} |} /\
  Struct.load_instructions [x06; x28; x00; x00; x19; x50; x00; x00]%byte
    = Some [10246; 20505] /\
  extract_fields 10246 = (6, 0, 5) /\ extract_fields 20505 = (25, 0, 10).
Proof. repeat split; vm_compute; reflexivity. Qed.

(** Running these two words from the zero state. *)
Example run_two_words :
  interpreter initial_memory
    (Some [x06; x28; x00; x00; x19; x50; x00; x00]%byte) 10 11 =
  Returned ({[ "register_0"%string := VInt 5;
               "memory"%string := VDict {[ "0x000A"%string := 5 ]} ]})
           {| halt_memory := <[10%nat := 5]> initial_memory;
              halt_dispatched := [(6, 0, 5); (25, 0, 10)] |}.
Proof. vm_compute. reflexivity. Qed.

(** Opcode 10 after cell 3 was set to 7: register 2 holds -7. *)
Example run_negate :
  match execute [encode 6 0 7; encode 25 0 3; encode 10 2 3] 0 0
          (start_state initial_memory) with
  | Returned doc st => (doc !! "register_2"%string, register st !! 2%nat, memory st !! 3%nat)
  | Raised _ _ => (None, None, None)
  end = (Some (VInt (-7)), Some (-7), Some 7).
Proof. vm_compute. reflexivity. Qed.

(** A blank line is skipped and keeps its number. *)
Example blank_line_skipped :
  assemble_lines 0 [newline; "0x06 0x00 0x05" +:+ newline] [] ∅ =
    inr ([10246], {[ "line_2"%string := "0x00002806"%string ]}).
Proof. vm_compute. reflexivity. Qed.

(** An operand of 2^21 gives a word [struct.pack] refuses: the raise
    comes once the binary file is open, with the words before it
    written and no log. *)
Example oversized_word_leaves_partial_binary :
  assembler (Some ["0x06 0x00 0x05"; "0x06 0x00 0x200000"]%string) no_outputs =
    Raised struct_error
      {| binary_file := Some [x06; x28; x00; x00]%byte; log_file := None |}.
Proof. vm_compute. reflexivity. Qed.

End Examples.

(** ** Further results: the codec on arbitrary integers *)

Section CodecArith.

Lemma extract_fields_div_mod (w : Z) :
  extract_fields w = (w mod 32, (w / 32) mod 64, w / 2048).
Proof.
  unfold extract_fields.
  rewrite land_COMMAND_MASK, land_REGISTER_MASK, !Z.shiftr_div_pow2 by lia.
  reflexivity.
Qed.

Lemma encode_in_range_sum (A B C : Z) :
  0 <= A < 32 -> 0 <= B < 64 -> 0 <= C ->
  encode A B C = A + 32 * B + 2048 * C.
Proof.
  intros HA HB HC.
  pose proof (encode_extract_fields_raw (A + 32 * B + 2048 * C)) as He.
  rewrite extract_fields_div_mod in He.
  replace ((A + 32 * B + 2048 * C) mod 32) with A in He.
  2:{ apply (Z.mod_unique_pos _ _ (B + 64 * C)); lia. }
  replace ((A + 32 * B + 2048 * C) / 32) with (B + 64 * C) in He.
  2:{ apply (Z.div_unique_pos _ _ _ A); lia. }
  replace ((B + 64 * C) mod 64) with B in He.
  2:{ apply (Z.mod_unique_pos _ _ C); lia. }
  replace ((A + 32 * B + 2048 * C) / 2048) with C in He.
  2:{ apply (Z.div_unique_pos _ _ _ (A + 32 * B)); lia. }
  exact He.
Qed.

End CodecArith.

(** X1: whatever integer is decoded, also a negative one or one wider
    than 32 bits, the opcode is below 32 and the register below 64; the
    address field is the whole quotient by 2048, so it is negative for a
    negative word and reaches 2^21 and more for a word of 2^32 and more. *)
Theorem X1_fields_of_any_integer (w : Z) :
  let '(A, B, C) := extract_fields w in
  0 <= A < 32 /\ 0 <= B < 64 /\ C = w / 2048 /\
  (0 <= C <-> 0 <= w) /\ (C < 2 ^ 21 <-> w < 2 ^ 32).
Proof.
  rewrite extract_fields_div_mod.
  split; [apply Z.mod_pos_bound; lia|].
  split; [apply Z.mod_pos_bound; lia|].
  split; [reflexivity|].
  pose proof (Z.div_mod w 2048 ltac:(lia)) as Hdm.
  pose proof (Z.mod_pos_bound w 2048 ltac:(lia)) as Hm.
  change (2 ^ 21) with 2097152. change (2 ^ 32) with 4294967296.
  split; split; intros H; lia.
Qed.

(** X2: fields within their widths pack to the sum
    [A + 32 * B + 2048 * C], a word below 2^32. *)
Theorem X2_encode_in_range_is_a_word (A B C : Z) :
  0 <= A < 32 -> 0 <= B < 64 -> 0 <= C < 2 ^ 21 ->
  encode A B C = A + 32 * B + 2048 * C /\ 0 <= encode A B C < 2 ^ 32.
Proof.
  intros HA HB HC.
  rewrite (encode_in_range_sum A B C HA HB ltac:(lia)).
  split; [reflexivity|].
  change (2 ^ 21) with 2097152 in HC. change (2 ^ 32) with 4294967296. lia.
Qed.

Lemma X2_encode_in_range_is_a_word_witness :
  encode 25 0 10 = 25 + 32 * 0 + 2048 * 10 /\ 0 <= encode 25 0 10 < 2 ^ 32.
Proof. apply (X2_encode_in_range_is_a_word 25 0 10); lia. Defined.

(** ** Further results: the binary stream *)

Section Stream.

Import Struct.

Lemma for_each_app {S A} (body : A -> M S unit) (xs ys : list A) (s : S) :
  for_each body (xs ++ ys) s =
    match for_each body xs s with
    | Returned _ s' => for_each body ys s'
    | Raised e s' => Raised e s'
    end.
Proof.
  revert s. induction xs as [|x xs IH]; intros s; [reflexivity|].
  simpl. unfold_M. destruct (body x s) as [[] s1|e s1]; [apply IH | reflexivity].
Qed.

Lemma Z_of_byte_range (b : byte) : 0 <= Z_of_byte b < 256.
Proof.
  unfold Z_of_byte. pose proof (Byte.to_N_bounded b) as H. lia.
Qed.

Lemma byte_of_Z_of_byte (b : byte) : byte_of_Z (Z_of_byte b) = b.
Proof.
  unfold byte_of_Z. rewrite Z.mod_small by apply Z_of_byte_range.
  unfold Z_of_byte. rewrite N2Z.id, Byte.of_to_N. reflexivity.
Qed.

Lemma byte_of_Z_mod (z : Z) : byte_of_Z (z mod 256) = byte_of_Z z.
Proof. unfold byte_of_Z. rewrite Z.mod_mod by lia. reflexivity. Qed.

Lemma lt_pow2_of_high_bits (w k : Z) :
  0 <= k -> 0 <= w -> (forall n, k <= n -> Z.testbit w n = false) -> w < 2 ^ k.
Proof.
  intros Hk Hw Hbits.
  rewrite <- (Z.mod_small w (2 ^ k)); [apply Z.mod_pos_bound; lia|].
  split; [exact Hw|].
  assert (Heq : w mod 2 ^ k = w).
  { apply Z.bits_inj'. intros n Hn. rewrite testbit_mod_pow2 by lia.
    destruct (Z.ltb_spec n k); [reflexivity|]. simpl. symmetry. apply Hbits. lia. }
  rewrite <- Heq. apply Z.mod_pos_bound. lia.
Qed.

(** The word four bytes unpack to, and the bytes it packs to. *)
Lemma pack_I_unpack_I (chunk : list byte) (w : Z) :
  unpack_I chunk = Some w ->
  length chunk = 4%nat /\ 0 <= w < 2 ^ 32 /\ pack_I w = Some chunk.
Proof.
  destruct chunk as [|b0 [|b1 [|b2 [|b3 [|]]]]]; try discriminate.
  cbn [unpack_I]. intros [= <-].
  pose proof (Z_of_byte_range b0) as H0. pose proof (Z_of_byte_range b1) as H1.
  pose proof (Z_of_byte_range b2) as H2. pose proof (Z_of_byte_range b3) as H3.
  set (x0 := Z_of_byte b0) in *. set (x1 := Z_of_byte b1) in *.
  set (x2 := Z_of_byte b2) in *. set (x3 := Z_of_byte b3) in *.
  set (w := Z.lor (Z.lor x0 (Z.shiftl x1 8)) (Z.lor (Z.shiftl x2 16) (Z.shiftl x3 24))).
  assert (Hbit : forall n, 0 <= n ->
            Z.testbit w n =
              Z.testbit x0 n || Z.testbit x1 (n - 8) ||
              (Z.testbit x2 (n - 16) || Z.testbit x3 (n - 24))).
  { intros n Hn. unfold w. rewrite !Z.lor_spec, !testbit_shiftl by lia. reflexivity. }
  assert (Hhi : forall x n, 0 <= x < 256 -> 8 <= n -> Z.testbit x n = false).
  { intros x n Hx Hn. apply (testbit_high x 8); [exact Hx | lia]. }
  assert (Hw0 : 0 <= w).
  { unfold w. rewrite !Z.lor_nonneg, !Z.shiftl_nonneg. lia. }
  assert (Hw : 0 <= w < 2 ^ 32).
  { split; [exact Hw0|]. apply lt_pow2_of_high_bits; [lia | exact Hw0 |].
    intros n Hn. rewrite Hbit by lia.
    rewrite (Hhi x0), (Hhi x1), (Hhi x2), (Hhi x3) by lia. reflexivity. }
  split; [reflexivity|]. split; [exact Hw|].
  unfold pack_I.
  destruct (Z.leb_spec 0 w); [|lia]. destruct (Z.ltb_spec w (2 ^ 32)); [|lia].
  cbn [andb].
  assert (Hb0 : w mod 256 = x0).
  { apply Z.bits_inj'. intros n Hn. change 256 with (2 ^ 8).
    rewrite testbit_mod_pow2, Hbit by lia.
    destruct (Z.ltb_spec n 8).
    - rewrite !(Z.testbit_neg_r _ (n - _)) by lia. simpl. rewrite !orb_false_r. reflexivity.
    - simpl. symmetry. apply Hhi; [exact H0 | lia]. }
  assert (Hb1 : Z.shiftr w 8 mod 256 = x1).
  { apply Z.bits_inj'. intros n Hn. change 256 with (2 ^ 8).
    rewrite testbit_mod_pow2, Z.shiftr_spec, Hbit by lia.
    replace (n + 8 - 8) with n by lia.
    destruct (Z.ltb_spec n 8).
    - rewrite (Hhi x0) by lia. rewrite !(Z.testbit_neg_r _ (n + 8 - _)) by lia.
      simpl. rewrite !orb_false_r. reflexivity.
    - simpl. symmetry. apply Hhi; [exact H1 | lia]. }
  assert (Hb2 : Z.shiftr w 16 mod 256 = x2).
  { apply Z.bits_inj'. intros n Hn. change 256 with (2 ^ 8).
    rewrite testbit_mod_pow2, Z.shiftr_spec, Hbit by lia.
    replace (n + 16 - 16) with n by lia.
    destruct (Z.ltb_spec n 8).
    - rewrite (Hhi x0), (Hhi x1) by lia. rewrite !(Z.testbit_neg_r _ (n + 16 - _)) by lia.
      simpl. rewrite !orb_false_r. reflexivity.
    - simpl. symmetry. apply Hhi; [exact H2 | lia]. }
  assert (Hb3 : Z.shiftr w 24 mod 256 = x3).
  { apply Z.bits_inj'. intros n Hn. change 256 with (2 ^ 8).
    rewrite testbit_mod_pow2, Z.shiftr_spec, Hbit by lia.
    replace (n + 24 - 24) with n by lia.
    destruct (Z.ltb_spec n 8).
    - rewrite (Hhi x0), (Hhi x1), (Hhi x2) by lia. reflexivity.
    - simpl. symmetry. apply Hhi; [exact H3 | lia]. }
  rewrite <- (byte_of_Z_mod w), <- (byte_of_Z_mod (Z.shiftr w 8)),
    <- (byte_of_Z_mod (Z.shiftr w 16)), <- (byte_of_Z_mod (Z.shiftr w 24)).
  rewrite Hb0, Hb1, Hb2, Hb3. unfold x0, x1, x2, x3.
  rewrite !byte_of_Z_of_byte. reflexivity.
Qed.

Lemma pack_I_in_range (w : Z) (bs : list byte) :
  pack_I w = Some bs -> 0 <= w < 2 ^ 32.
Proof.
  unfold pack_I.
  destruct (Z.leb_spec 0 w); destruct (Z.ltb_spec w (2 ^ 32)); try discriminate. lia.
Qed.


Lemma unpack_all_fuel (fuel fuel' : nat) (data : list byte) :
  (length data < fuel)%nat -> (length data < fuel')%nat ->
  unpack_all fuel data = unpack_all fuel' data.
Proof.
  revert fuel' data. induction fuel as [|fuel IH]; intros fuel' data Hf Hf'; [lia|].
  destruct fuel' as [|fuel']; [lia|].
  destruct data as [|b data]; [reflexivity|].
  cbn [unpack_all].
  rewrite (IH fuel' (drop 4 (b :: data))); [reflexivity| |];
    rewrite length_drop; simpl in *; lia.
Qed.

Lemma load_instructions_chunk (chunk rest : list byte) :
  length chunk = 4%nat ->
  load_instructions (chunk ++ rest) =
    w ← unpack_I chunk; ws ← load_instructions rest; Some (w :: ws).
Proof.
  intros Hc. destruct chunk as [|b0 [|b1 [|b2 [|b3 [|]]]]]; try discriminate.
  unfold load_instructions.
  change (unpack_all (S (length ([b0; b1; b2; b3] ++ rest))) ([b0; b1; b2; b3] ++ rest))
    with (w ← unpack_I [b0; b1; b2; b3];
          ws ← unpack_all (length ([b0; b1; b2; b3] ++ rest)) rest; Some (w :: ws)).
  rewrite (unpack_all_fuel (length ([b0; b1; b2; b3] ++ rest)) (S (length rest)) rest);
    [reflexivity | simpl; lia | lia].
Qed.

(** What the writing loop leaves when it returns. *)
Lemma write_loop_returned (ws : list Z) (content content' : list byte) :
  for_each write_instr ws content = Returned tt content' ->
  exists data, content' = content ++ data /\
    length data = (4 * length ws)%nat /\
    load_instructions data = Some ws.
Proof.
  revert content. induction ws as [|w ws IH]; intros content Hrun.
  - injection Hrun as <-. exists []. rewrite app_nil_r. repeat split.
  - simpl in Hrun. unfold_M. unfold write_instr in Hrun at 1.
    destruct (pack_I w) as [bs|] eqn:Hp; [|discriminate].
    destruct (IH _ Hrun) as (data & -> & Hlen & Hload).
    destruct (unpack_I_pack_I w (pack_I_in_range w bs Hp)) as (bs' & Hp' & Hbs & Hun).
    rewrite Hp in Hp'. injection Hp' as <-.
    exists (bs ++ data). rewrite app_assoc. split; [reflexivity|]. split.
    + rewrite length_app, Hbs, Hlen. simpl. lia.
    + rewrite (load_instructions_chunk bs data Hbs), Hun. simpl. rewrite Hload. reflexivity.
Qed.

Lemma write_loop_in_range (ws : list Z) (content : list byte) :
  Forall (fun w => 0 <= w < 2 ^ 32) ws ->
  exists content', for_each write_instr ws content = Returned tt content'.
Proof.
  revert content. induction ws as [|w ws IH]; intros content Hall.
  - eexists. reflexivity.
  - apply Forall_cons in Hall as [Hw Hall].
    destruct (unpack_I_pack_I w Hw) as (bs & Hp & _).
    simpl. unfold_M. unfold write_instr at 1. rewrite Hp. apply IH. exact Hall.
Qed.

Lemma write_loop_shift (ws : list Z) (c c0 : list byte) :
  for_each write_instr ws (c ++ c0) =
    match for_each write_instr ws c0 with
    | Returned _ d => Returned tt (c ++ d)
    | Raised e d => Raised e (c ++ d)
    end.
Proof.
  revert c0. induction ws as [|w ws IH]; intros c0; [reflexivity|].
  simpl. unfold_M. unfold write_instr at 1 3.
  destruct (pack_I w) as [bs|]; [|reflexivity].
  rewrite <- app_assoc. apply IH.
Qed.

Lemma load_instructions_words (data : list byte) (ws : list Z) :
  load_instructions data = Some ws ->
  Forall (fun w => 0 <= w < 2 ^ 32) ws /\
  for_each write_instr ws [] = Returned tt data.
Proof.
  remember (length data) as n eqn:Hn. revert data ws Hn.
  induction n as [n IH] using lt_wf_ind. intros data ws Hn Hload.
  destruct data as [|b0 data].
  { injection Hload as <-. split; [constructor | reflexivity]. }
  destruct (Nat.eq_dec (length (b0 :: data) mod 4)%nat 0%nat) as [Hal|Hal];
    [|rewrite (load_instructions_fragment _ Hal) in Hload; discriminate].
  destruct data as [|b1 [|b2 [|b3 rest]]]; try discriminate.
  change (b0 :: b1 :: b2 :: b3 :: rest) with ([b0; b1; b2; b3] ++ rest) in Hload |- *.
  rewrite (load_instructions_chunk [b0; b1; b2; b3] rest eq_refl) in Hload.
  destruct (unpack_I [b0; b1; b2; b3]) as [w|] eqn:Hun; [|discriminate].
  simpl in Hload.
  destruct (load_instructions rest) as [ws'|] eqn:Hrest; [|discriminate].
  injection Hload as <-.
  assert (Hlt : (length rest < n)%nat) by (subst n; simpl; lia).
  destruct (IH (length rest) Hlt rest ws' eq_refl Hrest) as (Hall & Hwrite).
  destruct (pack_I_unpack_I _ _ Hun) as (_ & Hw & Hp).
  split; [constructor; assumption|].
  simpl for_each. unfold_M. unfold write_instr at 1. rewrite Hp.
  change ([] ++ [b0; b1; b2; b3]) with ([b0; b1; b2; b3] ++ []).
  rewrite write_loop_shift, Hwrite. reflexivity.
Qed.

End Stream.

(** X3: a list of words that are all below 2^32 is written by the loop
    of lines 63-64 as 4 bytes a word, and the comprehension of line 95
    reads these bytes back as the same list. *)
Theorem X3_written_stream_loads_back (ws : list Z) :
  Forall (fun w => 0 <= w < 2 ^ 32) ws ->
  exists data,
    for_each write_instr ws [] = Returned tt data /\
    length data = (4 * length ws)%nat /\
    Struct.load_instructions data = Some ws.
Proof.
  intros Hall.
  destruct (write_loop_in_range ws [] Hall) as (data & Hrun).
  destruct (write_loop_returned _ _ _ Hrun) as (d & Hd & Hlen & Hload).
  simpl in Hd. subst d. exists data. auto.
Qed.

Lemma X3_written_stream_loads_back_witness :
  exists data,
    for_each write_instr [10246; 20505] [] = Returned tt data /\
    length data = 8%nat /\
    Struct.load_instructions data = Some [10246; 20505].
Proof.
  apply (X3_written_stream_loads_back [10246; 20505]).
  repeat constructor; lia.
Defined.

(** X4: every word the interpreter loads from a binary input is a
    32-bit value, there is one for every 4 bytes, and writing the words
    with the loop of the assembler gives the input bytes again. *)
Theorem X4_loaded_words_are_32_bit (data : list byte) (ws : list Z) :
  Struct.load_instructions data = Some ws ->
  Forall (fun w => 0 <= w < 2 ^ 32) ws /\
  length data = (4 * length ws)%nat /\
  for_each write_instr ws [] = Returned tt data.
Proof.
  intros Hload.
  destruct (load_instructions_words data ws Hload) as (Hall & Hwrite).
  split; [exact Hall|]. split; [|exact Hwrite].
  destruct (write_loop_returned _ _ _ Hwrite) as (d & Hd & Hlen & _).
  simpl in Hd. subst d. exact Hlen.
Qed.

Lemma X4_loaded_words_are_32_bit_witness :
  Forall (fun w => 0 <= w < 2 ^ 32) [10246] /\
  length [x06; x28; x00; x00]%byte = 4%nat /\
  for_each write_instr [10246] [] = Returned tt [x06; x28; x00; x00]%byte.
Proof.
  apply (X4_loaded_words_are_32_bit [x06; x28; x00; x00]%byte [10246]).
  reflexivity.
Defined.

(** ** Further results: rendering and reading hexadecimal *)

Import Chars.

Section Hex.

#[local] Arguments String.append : simpl nomatch.

Lemma append_assoc_string (a b c : string) : (a +:+ b) +:+ c = a +:+ (b +:+ c).
Proof. induction a as [|x a IH]; [reflexivity|]. cbn. rewrite IH. reflexivity. Qed.

Lemma append_empty_string (a : string) : a +:+ "" = a.
Proof. induction a as [|x a IH]; [reflexivity|]. cbn. rewrite IH. reflexivity. Qed.

Lemma all_chars_append (p : ascii -> bool) (a b : string) :
  all_chars p (a +:+ b) = all_chars p a && all_chars p b.
Proof.
  induction a as [|x a IH]; [reflexivity|]. cbn. rewrite IH, andb_assoc. reflexivity.
Qed.

Lemma hex_digit_spec (d : Z) :
  0 <= d < 16 ->
  upper_hex (Fmt.hex_digit d) = true /\ hex_value (Fmt.hex_digit d) = Some d.
Proof.
  intros Hd.
  assert (H : d = 0 \/ d = 1 \/ d = 2 \/ d = 3 \/ d = 4 \/ d = 5 \/ d = 6 \/ d = 7 \/
              d = 8 \/ d = 9 \/ d = 10 \/ d = 11 \/ d = 12 \/ d = 13 \/ d = 14 \/ d = 15)
    by lia.
  repeat (destruct H as [-> | H]; [split; reflexivity|]). subst d. split; reflexivity.
Qed.

(** What the reader makes of a character the renderer can produce. *)
Lemma upper_hex_read (c : ascii) :
  upper_hex c = true ->
  int_space c = false /\ Ascii.eqb c "_" = false /\ Ascii.eqb c "+" = false /\
  Ascii.eqb c "-" = false /\ Ascii.eqb c "x" = false /\ Ascii.eqb c "X" = false /\
  exists d, hex_value c = Some d.
Proof.
  destruct c as [[] [] [] [] [] [] [] []]; vm_compute; intros H; try discriminate H;
    repeat split; eexists; reflexivity.
Qed.

Lemma digits_go_digit (c : ascii) (d : Z) (rest : string) (a : Z) :
  upper_hex c = true -> hex_value c = Some d ->
  digits_go (String c rest) a false = digits_go rest (16 * a + d) false.
Proof.
  intros Hc Hv. destruct (upper_hex_read c Hc) as (_ & Hu & _).
  cbn [digits_go]. rewrite Hu, Hv. reflexivity.
Qed.

(** The digits [hex_go] puts in front of [acc], as the reader sees them. *)
Lemma hex_go_spec (fuel : nat) (n : Z) (acc : string) :
  (0 < fuel)%nat -> 0 <= n < 16 ^ Z.of_nat fuel ->
  exists ds k,
    Fmt.hex_go fuel n acc = ds +:+ acc /\ ds <> EmptyString /\
    all_chars upper_hex ds = true /\ 0 <= k /\
    forall a rest, digits_go (ds +:+ rest) a false = digits_go rest (a * 16 ^ k + n) false.
Proof.
  revert n acc. induction fuel as [|fuel IH]; intros n acc Hf Hn; [lia|].
  pose proof (Z.mod_pos_bound n 16 ltac:(lia)) as Hm.
  pose proof (Z.div_mod n 16 ltac:(lia)) as Hdm.
  destruct (hex_digit_spec (n mod 16) Hm) as (Hup & Hval).
  cbn [Fmt.hex_go]. destruct (Z.eqb_spec (n / 16) 0) as [Hz|Hnz].
  - exists (String (Fmt.hex_digit (n mod 16)) EmptyString), 1.
    split; [reflexivity|]. split; [discriminate|].
    split; [cbn [all_chars]; rewrite Hup; reflexivity|]. split; [lia|].
    intros a rest. cbn [String.app append].
    rewrite (digits_go_digit _ _ _ _ Hup Hval). f_equal; lia.
  - assert (Hq : 0 <= n / 16 < 16 ^ Z.of_nat fuel).
    { split; [apply Z.div_pos; lia|].
      apply Z.div_lt_upper_bound; [lia|].
      rewrite Nat2Z.inj_succ, Z.pow_succ_r in Hn by lia. lia. }
    assert (Hfuel : (0 < fuel)%nat).
    { destruct fuel; [|lia]. simpl in Hq. lia. }
    destruct (IH (n / 16) (String (Fmt.hex_digit (n mod 16)) acc) Hfuel Hq)
      as (ds & k & Hgo & Hne & Hall & Hk & Hread).
    exists (ds +:+ String (Fmt.hex_digit (n mod 16)) EmptyString), (k + 1).
    split; [rewrite Hgo, append_assoc_string; reflexivity|].
    split; [destruct ds; [contradiction | discriminate]|].
    split; [rewrite all_chars_append, Hall; cbn [all_chars]; rewrite Hup; reflexivity|].
    split; [lia|].
    intros a rest. rewrite append_assoc_string. cbn [String.app append].
    rewrite Hread, (digits_go_digit _ _ _ _ Hup Hval). f_equal.
    rewrite Z.pow_add_r by lia. lia.
Qed.

Lemma hex_spec (n : Z) :
  0 <= n ->
  Fmt.hex n <> EmptyString /\ all_chars upper_hex (Fmt.hex n) = true /\
  digits_go (Fmt.hex n) 0 false = Some n.
Proof.
  intros Hn. unfold Fmt.hex.
  destruct (hex_go_spec (S (Z.to_nat (Z.log2 n))) n EmptyString) as
    (ds & k & Hgo & Hne & Hall & Hk & Hread); [lia| |].
  { split; [exact Hn|].
    destruct (Z.eq_dec n 0) as [->|Hn0]; [reflexivity|].
    pose proof (Z.log2_spec n ltac:(lia)) as [_ Hlt].
    pose proof (Z.log2_nonneg n) as Hl.
    rewrite Nat2Z.inj_succ, Z2Nat.id by lia.
    eapply Z.lt_le_trans; [exact Hlt|].
    change 16 with (2 ^ 4). rewrite <- Z.pow_mul_r by lia.
    apply Z.pow_le_mono_r; lia. }
  rewrite Hgo, append_empty_string. split; [exact Hne|]. split; [exact Hall|].
  specialize (Hread 0 EmptyString). rewrite append_empty_string in Hread.
  rewrite Hread. cbn [digits_go]. f_equal; lia.
Qed.

Lemma zfill_spec (width : nat) (s : string) (n : Z) :
  s <> EmptyString -> all_chars upper_hex s = true ->
  digits_go s 0 false = Some n ->
  Fmt.zfill width s <> EmptyString /\ all_chars upper_hex (Fmt.zfill width s) = true /\
  digits_go (Fmt.zfill width s) 0 false = Some n.
Proof.
  intros Hne Hall Hread. unfold Fmt.zfill.
  induction (width - String.length s)%nat as [|m IH].
  - cbn. auto.
  - destruct IH as (IHne & IHall & IHread).
    cbn [Fmt.zeros String.app append]. split; [discriminate|].
    split; [cbn; exact IHall|].
    rewrite (digits_go_digit "0" 0) by reflexivity. exact IHread.
Qed.

Lemma rev_app_twice (s1 s2 s3 : string) :
  String.rev_app (String.rev_app s1 s2) s3 = String.rev_app s2 (s1 +:+ s3).
Proof.
  revert s2. induction s1 as [|c s1 IH]; intros s2; [reflexivity|].
  cbn [String.rev_app]. rewrite IH. reflexivity.
Qed.

Lemma all_chars_rev_app (p : ascii -> bool) (s1 s2 : string) :
  all_chars p (String.rev_app s1 s2) = all_chars p s1 && all_chars p s2.
Proof.
  revert s2. induction s1 as [|c s1 IH]; intros s2; [reflexivity|].
  cbn [String.rev_app all_chars]. rewrite IH. cbn [all_chars].
  destruct (p c), (all_chars p s1), (all_chars p s2); reflexivity.
Qed.

Lemma lstrip_no_space (s : string) :
  all_chars (fun c => negb (int_space c)) s = true -> int_lstrip s = s.
Proof.
  destruct s as [|c s]; [reflexivity|]. cbn [all_chars int_lstrip].
  destruct (int_space c); [discriminate | reflexivity].
Qed.

(** [int] drops nothing around a string without a space. *)
Lemma strip_no_space (s : string) :
  all_chars (fun c => negb (int_space c)) s = true -> int_strip s = s.
Proof.
  intros Hs. unfold int_strip. rewrite (lstrip_no_space s Hs).
  rewrite lstrip_no_space.
  - unfold String.rev. rewrite rev_app_twice. cbn [String.rev_app].
    apply append_empty_string.
  - unfold String.rev. rewrite all_chars_rev_app, Hs. reflexivity.
Qed.

Lemma all_chars_impl (p q : ascii -> bool) (s : string) :
  (forall c, p c = true -> q c = true) ->
  all_chars p s = true -> all_chars q s = true.
Proof.
  intros Hpq. induction s as [|c s IH]; [reflexivity|]. cbn [all_chars].
  rewrite !andb_true_iff. intros [Hc Hs]. auto.
Qed.

Lemma upper_hex_no_space (s : string) :
  all_chars upper_hex s = true -> all_chars (fun c => negb (int_space c)) s = true.
Proof.
  apply all_chars_impl. intros c Hc.
  destruct (upper_hex_read c Hc) as (-> & _). reflexivity.
Qed.

(** [int16] on a run of upper-case digits, bare or after a minus sign. *)
Lemma int16_digits (s : string) (n : Z) :
  s <> EmptyString -> all_chars upper_hex s = true ->
  digits_go s 0 false = Some n ->
  int16 s = Some n /\ int16 (String "-" s) = Some (- n).
Proof.
  intros Hne Hall Hread.
  destruct s as [|c s]; [contradiction|].
  pose proof Hall as Hall'. cbn [all_chars] in Hall'.
  apply andb_true_iff in Hall' as [Hc Hs].
  destruct (upper_hex_read c Hc) as (Hsp & Hus & Hplus & Hminus & _ & _ & _).
  assert (Hprefix : forall t : string,
            match String c s with
            | String z (String x r) =>
                if Ascii.eqb z "0" && (Ascii.eqb x "x" || Ascii.eqb x "X") then t
                else String c s
            | _ => String c s
            end = String c s).
  { intros t. destruct s as [|x r]; [reflexivity|].
    cbn [all_chars] in Hs. apply andb_true_iff in Hs as [Hx _].
    destruct (upper_hex_read x Hx) as (_ & _ & _ & _ & -> & -> & _).
    rewrite andb_false_r. reflexivity. }
  assert (Hdig : digits (String c s) = Some n).
  { unfold digits. rewrite Hus. exact Hread. }
  split.
  - unfold int16. rewrite (strip_no_space _ (upper_hex_no_space _ Hall)).
    rewrite Hplus, Hminus.
    destruct s as [|x r].
    + rewrite Hdig. simpl. f_equal; lia.
    + cbn [all_chars] in Hs. apply andb_true_iff in Hs as [Hx _].
      destruct (upper_hex_read x Hx) as (_ & _ & _ & _ & -> & -> & _).
      rewrite andb_false_r. cbn [orb]. rewrite Hdig. simpl. f_equal; lia.
  - unfold int16. rewrite strip_no_space.
    2:{ apply andb_true_iff. split; [reflexivity|].
        exact (upper_hex_no_space _ Hall). }
    change (Ascii.eqb "-" "+") with false. change (Ascii.eqb "-" "-") with true.
    cbv iota beta.
    destruct s as [|x r].
    + rewrite Hdig. simpl. f_equal; lia.
    + cbn [all_chars] in Hs. apply andb_true_iff in Hs as [Hx _].
      destruct (upper_hex_read x Hx) as (_ & _ & _ & _ & -> & -> & _).
      rewrite andb_false_r. cbn [orb]. rewrite Hdig. simpl. f_equal; lia.
Qed.

Lemma int16_format_0X (width : nat) (z : Z) :
  int16 (Fmt.format_0X width z) = Some z.
Proof.
  unfold Fmt.format_0X. destruct (Z.ltb_spec z 0) as [Hneg|Hpos].
  - destruct (hex_spec (- z) ltac:(lia)) as (Hne & Hall & Hread).
    destruct (zfill_spec (width - 1) _ _ Hne Hall Hread) as (Hne' & Hall' & Hread').
    destruct (int16_digits _ _ Hne' Hall' Hread') as (_ & Hminus).
    change ("-" +:+ Fmt.zfill (width - 1) (Fmt.hex (- z)))
      with (String "-" (Fmt.zfill (width - 1) (Fmt.hex (- z)))).
    rewrite Hminus. f_equal; lia.
  - destruct (hex_spec z Hpos) as (Hne & Hall & Hread).
    destruct (zfill_spec width _ _ Hne Hall Hread) as (Hne' & Hall' & Hread').
    destruct (int16_digits _ _ Hne' Hall' Hread') as (Hplain & _). exact Hplain.
Qed.

Lemma address_key_inj (a b : Z) : address_key a = address_key b -> a = b.
Proof.
  unfold address_key. intros H. apply (inj (String.app "0x")) in H.
  pose proof (int16_format_0X 4 a) as Ha. rewrite H, int16_format_0X in Ha.
  congruence.
Qed.

Lemma line_key_inj (i j : nat) : line_key i = line_key j -> i = j.
Proof.
  unfold line_key. intros H. apply (inj (String.app "line_")) in H.
  apply (inj pretty) in H. lia.
Qed.

End Hex.

(** X5: the rendering of a word in the log, read as a token of a
    listing, is the word again: without its first two characters it is
    a numeral [int(_, 16)] accepts, with the word as its value.  This
    holds for negative words too, and two different words never have
    the same rendering. *)
Theorem X5_rendered_word_reads_back (instruction : Z) :
  int16 (slice_from 2 (render instruction)) = Some instruction /\
  numeral_token (render instruction) = true /\
  forall other, render other = render instruction -> other = instruction.
Proof.
  assert (H : int16 (slice_from 2 (render instruction)) = Some instruction).
  { unfold render. change (slice_from 2 ("0x" +:+ Fmt.format_0X 8 instruction))
      with (Fmt.format_0X 8 instruction). apply int16_format_0X. }
  split; [exact H|]. split.
  - unfold numeral_token. rewrite H. reflexivity.
  - intros other Heq. unfold render in Heq. apply (inj (String.app "0x")) in Heq.
    pose proof (int16_format_0X 8 other) as Ho.
    rewrite Heq, int16_format_0X in Ho. congruence.
Qed.

(** ** Further results: which instructions raise *)

Import Run.

Section Bounds.

Lemma dispatch_in_bounds (st : vm) (A B C : Z) :
  0 <= B < Z.of_nat (length (register st)) ->
  (memory_opcode A = true -> 0 <= C < Z.of_nat (length (memory st))) ->
  exists st', dispatch A B C st = Returned tt st'.
Proof.
  intros HB HC. unfold dispatch, memory_opcode in *.
  destruct (Z.eqb_spec A 6).
  { rewrite (set_register_inside st B C HB). eauto. }
  destruct (Z.eqb_spec A 8).
  { destruct (get_memory_inside st C (HC eq_refl)) as (v & Hg & _).
    unfold_M. rewrite Hg, (set_register_inside st B v HB). eauto. }
  destruct (Z.eqb_spec A 25).
  { destruct (get_register_inside st B HB) as (v & Hg & _).
    unfold_M. rewrite Hg, (set_memory_inside st C v (HC eq_refl)). eauto. }
  destruct (Z.eqb_spec A 10).
  { destruct (get_memory_inside st C (HC eq_refl)) as (v & Hg & _).
    unfold_M. rewrite Hg, (set_register_inside st B (- v) HB). eauto. }
  eexists. reflexivity.
Qed.

Lemma dispatch_beyond (st : vm) (A B C : Z) :
  0 <= B < Z.of_nat (length (register st)) ->
  memory_opcode A = true -> Z.of_nat (length (memory st)) <= C ->
  dispatch A B C st = Raised IndexError st.
Proof.
  intros HB HA HC. unfold dispatch, memory_opcode in *.
  destruct (get_register_inside st B HB) as (v & Hg & _).
  destruct (Z.eqb_spec A 6); [subst; discriminate|].
  unfold_M.
  destruct (Z.eqb_spec A 8); [rewrite get_memory_beyond by exact HC; reflexivity|].
  destruct (Z.eqb_spec A 25); [rewrite Hg, set_memory_beyond by exact HC; reflexivity|].
  destruct (Z.eqb_spec A 10); [rewrite get_memory_beyond by exact HC; reflexivity|].
  discriminate.
Qed.

Lemma exec_instr_in_bounds (st : vm) (instr : Z) :
  length (register st) = 64%nat -> length (memory st) = 1024%nat ->
  0 <= instr -> out_of_bounds instr = false ->
  exists st', exec_instr instr st = Returned tt st' /\
    length (register st') = 64%nat /\ length (memory st') = 1024%nat /\
    dispatched st' = dispatched st ++ [extract_fields instr].
Proof.
  intros Hr Hm Hpos Hsafe.
  pose proof (register_field_range instr) as HB.
  pose proof (extract_fields_div_mod instr) as Hdm.
  unfold out_of_bounds in Hsafe.
  destruct (extract_fields instr) as [[A B] C] eqn:Hf. simpl in HB.
  assert (HC : 0 <= C).
  { injection Hdm as _ _ ->. apply Z.div_pos; lia. }
  rewrite (exec_instr_fields st instr A B C Hf). unfold_M.
  destruct (dispatch_in_bounds (reached st (A, B, C)) A B C) as (s2 & Hd).
  { simpl. lia. }
  { intros HA. rewrite HA in Hsafe. simpl in Hsafe |- *.
    destruct (Z.leb_spec 1024 C); [discriminate | lia]. }
  rewrite Hd.
  pose proof (dispatch_returned _ _ _ _ _ Hd) as (_ & Htr & Hlr & Hlm & _).
  simpl in Htr, Hlr, Hlm.
  destruct (record_register_inside s2 B) as (v & _ & Hrec); [lia|].
  rewrite Hrec. eexists. split; [reflexivity|]. simpl.
  repeat split; congruence.
Qed.

Lemma exec_instr_beyond (st : vm) (instr : Z) :
  length (register st) = 64%nat -> length (memory st) = 1024%nat ->
  out_of_bounds instr = true ->
  exec_instr instr st = Raised IndexError (reached st (extract_fields instr)).
Proof.
  intros Hr Hm Hout.
  pose proof (register_field_range instr) as HB.
  unfold out_of_bounds in Hout.
  destruct (extract_fields instr) as [[A B] C] eqn:Hf. simpl in HB.
  apply andb_true_iff in Hout as [HA HC]. apply Z.leb_le in HC.
  rewrite (exec_instr_fields st instr A B C Hf). unfold_M.
  rewrite dispatch_beyond; [reflexivity | simpl; lia | exact HA | simpl; lia].
Qed.

End Bounds.

(** X6: in a state with 64 registers and 1024 memory cells, the body
    of the loop raises on a non-negative word exactly when the opcode is
    8, 25 or 10 and the operand is 1024 or more.  Every other word
    returns, a load of a constant of 1024 or more included, and the
    lists keep their lengths. *)
Theorem X6_instruction_raises_iff_out_of_bounds (st : vm) (instr : Z) :
  length (register st) = 64%nat -> length (memory st) = 1024%nat ->
  0 <= instr ->
  (out_of_bounds instr = true ->
     exec_instr instr st = Raised IndexError (reached st (extract_fields instr))) /\
  (out_of_bounds instr = false ->
     exists st', exec_instr instr st = Returned tt st' /\
       length (register st') = 64%nat /\ length (memory st') = 1024%nat /\
       dispatched st' = dispatched st ++ [extract_fields instr]).
Proof.
  intros Hr Hm Hpos. split.
  - apply exec_instr_beyond; assumption.
  - apply exec_instr_in_bounds; assumption.
Qed.

Lemma X6_instruction_raises_iff_out_of_bounds_witness :
  exists st', exec_instr (encode 6 1 2000) (start_state initial_memory) = Returned tt st' /\
    register st' !! 1%nat = Some 2000.
Proof.
  destruct (X6_instruction_raises_iff_out_of_bounds
              (start_state initial_memory) (encode 6 1 2000))
    as (_ & Hret); [reflexivity | reflexivity | vm_compute; discriminate |].
  destruct (Hret eq_refl) as (st' & Hex & _).
  exists st'. split; [exact Hex|].
  assert (Hc : exec_instr (encode 6 1 2000) (start_state initial_memory) =
               Returned tt {| register := <[1%nat := 2000]> (replicate 64 0);
                              memory := initial_memory;
                              result := {[ register_key 1 := VInt 2000 ]};
                              dispatched := [(6, 1, 2000)] |})
    by (vm_compute; reflexivity).
  rewrite Hc in Hex. injection Hex as <-. reflexivity.
Defined.

(** X7: an instruction that returns changes no register but its own,
    changes the memory only with opcode 25 and then only in cell C, and
    adds its own fields, and nothing else, to the trace. *)
Theorem X7_instruction_frame (st st' : vm) (instr A B C : Z) :
  0 <= instr ->
  extract_fields instr = (A, B, C) ->
  exec_instr instr st = Returned tt st' ->
  (forall n, n <> Z.to_nat B -> register st' !! n = register st !! n) /\
  (A <> 25 -> memory st' = memory st) /\
  (forall m, m <> Z.to_nat C -> memory st' !! m = memory st !! m) /\
  dispatched st' = dispatched st ++ [(A, B, C)].
Proof.
  intros Hpos Hf Hex.
  pose proof (register_field_range instr) as HB. rewrite Hf in HB. simpl in HB.
  assert (HC : 0 <= C).
  { pose proof (extract_fields_div_mod instr) as Hdm. rewrite Hf in Hdm.
    injection Hdm as _ _ ->. apply Z.div_pos; lia. }
  rewrite (exec_instr_fields st instr A B C Hf) in Hex. unfold_M.
  destruct (dispatch A B C (reached st (A, B, C))) as [[] s2|e s2] eqn:Hd;
    [|discriminate].
  apply record_register_returned in Hex as (v & _ & ->). simpl.
  pose proof (dispatch_returned _ _ _ _ _ Hd) as (_ & Htr & _).
  split; [|split; [|split]].
  - intros n Hn.
    apply (dispatch_other_registers _ _ A B C n ltac:(lia) Hn Hd).
  - intros HA. revert Hd.
    unfold dispatch, get_register, get_memory, set_register, set_memory. unfold_M.
    repeat match goal with
           | |- context [Z.eqb ?a ?b] => destruct (Z.eqb_spec a b)
           | |- context [getitem ?l ?i] => destruct (getitem l i)
           | |- context [setitem ?l ?i ?v] => destruct (setitem l i v)
           end; intros [= <-]; try reflexivity; lia.
  - intros m Hm. revert Hd.
    unfold dispatch, get_register, get_memory, set_register, set_memory. unfold_M.
    repeat match goal with
           | |- context [Z.eqb ?a ?b] => destruct (Z.eqb_spec a b)
           | |- context [getitem ?l ?i] => destruct (getitem l i)
           | |- context [setitem ?l ?i ?v] =>
               let H := fresh "Hset" in destruct (setitem l i v) eqn:H
           end; intros [= <-]; simpl; try reflexivity.
    apply (setitem_nonneg _ _ _ _ HC) in Hset. subst.
    apply list_lookup_insert_ne. congruence.
  - exact Htr.
Qed.

Lemma X7_instruction_frame_witness :
  register (state_of (exec_instr (encode 6 1 2000) (start_state initial_memory))) !! 0%nat
  = replicate 64 0 !! 0%nat.
Proof.
  assert (Hc : exec_instr (encode 6 1 2000) (start_state initial_memory) =
               Returned tt {| register := <[1%nat := 2000]> (replicate 64 0);
                              memory := initial_memory;
                              result := {[ register_key 1 := VInt 2000 ]};
                              dispatched := [(6, 1, 2000)] |})
    by (vm_compute; reflexivity).
  destruct (X7_instruction_frame _ _ (encode 6 1 2000) 6 1 2000
              ltac:(vm_compute; discriminate) eq_refl Hc) as (Hreg & _).
  rewrite Hc. apply (Hreg 0%nat). discriminate.
Defined.

(** ** Further results: a whole run *)

Section WholeRun.

Lemma for_each_in_bounds (ws : list Z) (st : vm) :
  length (register st) = 64%nat -> length (memory st) = 1024%nat ->
  Forall (fun w => 0 <= w) ws ->
  Forall (fun w => out_of_bounds w = false) ws ->
  exists st', for_each exec_instr ws st = Returned tt st' /\
    length (register st') = 64%nat /\ length (memory st') = 1024%nat /\
    dispatched st' = dispatched st ++ map extract_fields ws.
Proof.
  revert st. induction ws as [|w ws IH]; intros st Hr Hm Hpos Hsafe.
  - exists st. rewrite app_nil_r. auto.
  - apply Forall_cons in Hpos as [Hw Hpos]. apply Forall_cons in Hsafe as [Hs Hsafe].
    destruct (exec_instr_in_bounds st w Hr Hm Hw Hs) as (s1 & Hex & Hr1 & Hm1 & Ht1).
    destruct (IH s1 Hr1 Hm1 Hpos Hsafe) as (st' & Hrun & Hr' & Hm' & Ht').
    exists st'. simpl. unfold_M. rewrite Hex. split; [exact Hrun|].
    split; [exact Hr'|]. split; [exact Hm'|].
    rewrite Ht', Ht1, <- app_assoc. reflexivity.
Qed.

(** The keys of the result dictionary after the loop: those it had, and
    the register keys of the instructions run. *)
Lemma for_each_result_keys (ws : list Z) (st st' : vm) :
  for_each exec_instr ws st = Returned tt st' ->
  forall k, is_Some (result st' !! k) ->
    is_Some (result st !! k) \/
    exists instr, instr ∈ ws /\ k = register_key (extract_fields instr).1.2.
Proof.
  revert st. induction ws as [|w ws IH]; intros st Hrun k Hk.
  - injection Hrun as <-. left. exact Hk.
  - simpl in Hrun. unfold_M.
    destruct (exec_instr w st) as [[] s1|e s1] eqn:Hex; [|discriminate].
    destruct (IH s1 Hrun k Hk) as [Hold|(instr & Hin & ->)].
    + destruct (extract_fields w) as [[A B] C] eqn:Hf.
      rewrite (exec_instr_fields st w A B C Hf) in Hex. unfold_M.
      destruct (dispatch A B C (reached st (A, B, C))) as [[] s2|e s2] eqn:Hd;
        [|discriminate].
      apply record_register_returned in Hex as (v & _ & ->).
      apply dispatch_returned in Hd as (Hres & _). simpl in Hold. rewrite Hres in Hold.
      simpl in Hold. destruct (decide (k = register_key B)) as [->|Hne].
      * right. exists w. split; [left|]. rewrite Hf. reflexivity.
      * rewrite lookup_insert_ne in Hold by congruence. left. exact Hold.
    + right. exists instr. split; [right; exact Hin | reflexivity].
Qed.

(** The dictionary built by the comprehension of line 118 over
    distinct non-negative addresses. *)
Lemma dump_memory_content (addrs : list Z) (d d' : gmap string Z) (st st' : vm) :
  NoDup addrs -> (forall a, a ∈ addrs -> 0 <= a) ->
  dump_memory addrs d st = Returned d' st' ->
  (forall a, a ∈ addrs ->
     is_Some (d' !! address_key a) /\ d' !! address_key a = memory st !! Z.to_nat a) /\
  (forall k, (forall a, a ∈ addrs -> k <> address_key a) -> d' !! k = d !! k).
Proof.
  revert d. induction addrs as [|a addrs IH]; intros d Hnd Hpos Hrun.
  - injection Hrun as <- _. split; [intros a Ha; inversion Ha | reflexivity].
  - apply NoDup_cons in Hnd as [Hnotin Hnd].
    simpl in Hrun. unfold_M. unfold get_memory in Hrun at 1.
    destruct (getitem (memory st) a) as [v|] eqn:Hg; [|discriminate].
    apply getitem_nonneg in Hg; [|apply Hpos; left].
    destruct (IH (<[address_key a := v]> d) Hnd) as (Hin & Hout);
      [intros x Hx; apply Hpos; right; exact Hx | exact Hrun |].
    split.
    + intros x Hx. apply elem_of_cons in Hx as [->|Hx]; [|apply Hin; exact Hx].
      rewrite Hout, lookup_insert_eq; [rewrite Hg; eauto|].
      intros y Hy Heq. apply address_key_inj in Heq. subst y. contradiction.
    + intros k Hk. rewrite Hout.
      * apply lookup_insert_ne. intros Heq. apply (Hk a); [left | congruence].
      * intros y Hy. apply Hk. right. exact Hy.
Qed.

(** What [execute] has done when it returns. *)
Lemma execute_returned (ws : list Z) (s e : Z) (st0 st : vm) (doc : gmap string value) :
  execute ws s e st0 = Returned doc st ->
  exists st1 d,
    for_each exec_instr ws st0 = Returned tt st1 /\
    dump_memory (range s e) ∅ st1 = Returned d st1 /\
    doc = <["memory"%string := VDict d]> (result st1) /\
    register st = register st1 /\ memory st = memory st1 /\
    dispatched st = dispatched st1.
Proof.
  unfold execute. unfold_M.
  destruct (for_each exec_instr ws st0) as [[] st1|err st1] eqn:Hrun; [|discriminate].
  pose proof (dump_memory_state (range s e) ∅ st1) as Hst.
  destruct (dump_memory (range s e) ∅ st1) as [d s2|err s2] eqn:Hd; [|discriminate].
  simpl in Hst. subst s2. unfold set_result. unfold_M. intros [= <- <-].
  exists st1, d. split; [reflexivity|]. split; [exact Hd|].
  repeat split; reflexivity.
Qed.

Lemma load_instructions_nonempty (data : list byte) (ws : list Z) :
  data <> [] -> Struct.load_instructions data = Some ws -> ws <> [].
Proof.
  intros Hne Hload ->.
  destruct (load_instructions_words data [] Hload) as (_ & Hw).
  injection Hw as <-. contradiction.
Qed.

End WholeRun.

(** X8: on a memory of 1024 cells, with an accepted dump range and a
    non-empty binary input that loads to words none of which subscripts
    the memory at 1024 or beyond, the interpreter returns.  It reaches
    every instruction in order, leaves the memory the loop produced, and
    writes a result whose entry [memory] has exactly one key for every
    address from the start address up to, not including, the end
    address, holding that cell of the final memory. *)
Theorem X8_run_in_bounds_returns
    (mem : list Z) (data : list byte) (ws : list Z) (s e : Z) :
  length mem = 1024%nat ->
  addresses_in_range mem s e = true ->
  data <> [] ->
  Struct.load_instructions data = Some ws ->
  Forall (fun w => out_of_bounds w = false) ws ->
  exists st doc d,
    for_each exec_instr ws (start_state mem) = Returned tt st /\
    interpreter mem (Some data) s e =
      Returned doc {| halt_memory := memory st;
                      halt_dispatched := map extract_fields ws |} /\
    doc = <["memory"%string := VDict d]> (result st) /\
    (forall a, s <= a < e -> d !! address_key a = memory st !! Z.to_nat a /\
                             is_Some (d !! address_key a)) /\
    (forall k, is_Some (d !! k) -> exists a, s <= a < e /\ k = address_key a).
Proof.
  intros Hlen Hrange Hne Hload Hsafe.
  destruct (load_instructions_words data ws Hload) as (Hwords & _).
  assert (Hpos : Forall (fun w => 0 <= w) ws).
  { eapply Forall_impl; [exact Hwords|]. simpl. intros w Hw. lia. }
  destruct (for_each_in_bounds ws (start_state mem) eq_refl Hlen Hpos Hsafe)
    as (st & Hrun & Hr & Hm & Htr).
  apply addresses_in_range_spec in Hrange as Hse. rewrite Hlen in Hse.
  destruct (dump_memory_inside (range s e) ∅ st) as (d & Hd).
  { intros a Ha. apply elem_of_seqZ in Ha. rewrite Hm. lia. }
  destruct (dump_memory_content (range s e) ∅ d st st) as (Hin & Hout).
  { apply NoDup_seqZ. }
  { intros a Ha. apply elem_of_seqZ in Ha. lia. }
  { exact Hd. }
  exists st, (<["memory"%string := VDict d]> (result st)), d.
  split; [exact Hrun|]. split.
  - unfold interpreter. rewrite Hrange. simpl negb. cbv iota.
    destruct data as [|b data]; [contradiction|].
    rewrite Hload. unfold execute. unfold_M. rewrite Hrun, Hd.
    unfold set_result. unfold_M. unfold halt_of. simpl. rewrite Htr. reflexivity.
  - split; [reflexivity|]. split.
    + intros a Ha. assert (Hel : a ∈ range s e) by (apply elem_of_seqZ; lia).
      destruct (Hin a Hel) as (Hsome & Heq). auto.
    + intros k Hk.
      destruct (decide (k ∈ address_key <$> range s e)) as [Hyes|Hno].
      * apply list_elem_of_fmap in Hyes as (a & -> & Ha).
        exists a. apply elem_of_seqZ in Ha. split; [lia | reflexivity].
      * rewrite Hout in Hk.
        -- rewrite lookup_empty in Hk. destruct Hk as [? Hk]. discriminate.
        -- intros a Ha Heq. apply Hno. apply list_elem_of_fmap. exists a. auto.
Qed.

Lemma X8_run_in_bounds_returns_witness :
  exists st doc,
    for_each exec_instr [10246; 20505] (start_state initial_memory) = Returned tt st /\
    interpreter initial_memory
      (Some [x06; x28; x00; x00; x19; x50; x00; x00]%byte) 10 11 =
      Returned doc {| halt_memory := memory st;
                      halt_dispatched := map extract_fields [10246; 20505] |}.
Proof.
  destruct (X8_run_in_bounds_returns initial_memory
              [x06; x28; x00; x00; x19; x50; x00; x00]%byte [10246; 20505] 10 11)
    as (st & doc & d & Hrun & Hint & _);
    [reflexivity | reflexivity | discriminate | reflexivity
    | repeat constructor |].
  exists st, doc. split; assumption.
Defined.

(** X9: in the result [execute] returns, every instruction of the run
    has the entry of its register, holding the value the register has
    when the run ends; besides these entries and the entry [memory]
    there is nothing in the result, so a register no instruction names
    is not reported. *)
Theorem X9_result_holds_final_registers
    (mem : list Z) (ws : list Z) (s e : Z) (doc : gmap string value) (st : vm) :
  execute ws s e (start_state mem) = Returned doc st ->
  (forall instr A B C, instr ∈ ws -> extract_fields instr = (A, B, C) ->
     exists v, doc !! register_key B = Some (VInt v) /\
               register st !! Z.to_nat B = Some v) /\
  (forall k, is_Some (doc !! k) ->
     k = "memory"%string \/
     exists instr, instr ∈ ws /\ k = register_key (extract_fields instr).1.2) /\
  (exists d, doc !! "memory"%string = Some (VDict d)).
Proof.
  intros Hex.
  destruct (execute_returned _ _ _ _ _ _ Hex) as (st1 & d & Hrun & _ & -> & Hreg & _).
  split; [|split].
  - intros instr A B C Hin Hf.
    destruct (snapshot_after_run mem ws st1 Hrun instr A B C Hin Hf) as (v & Hv & Hr).
    exists v. rewrite Hreg.
    rewrite lookup_insert_ne by (apply not_eq_sym, register_key_not_memory). auto.
  - intros k Hk. destruct (decide (k = "memory"%string)) as [->|Hne]; [left; reflexivity|].
    right. rewrite lookup_insert_ne in Hk by congruence.
    destruct (for_each_result_keys ws _ _ Hrun k Hk) as [Hold|Hnew]; [|exact Hnew].
    cbn [result start_state] in Hold. rewrite lookup_empty in Hold.
    destruct Hold as [? Hold]. discriminate.
  - exists d. apply lookup_insert_eq.
Qed.

Lemma X9_result_holds_final_registers_witness :
  exists doc st,
    execute [encode 6 0 7; encode 25 0 3; encode 10 2 3] 0 0 (start_state initial_memory)
      = Returned doc st /\
    doc !! register_key 2 = Some (VInt (-7)) /\ doc !! register_key 1 = None.
Proof.
  destruct (execute [encode 6 0 7; encode 25 0 3; encode 10 2 3] 0 0
              (start_state initial_memory)) as [doc st|err st] eqn:Hex;
    [|vm_compute in Hex; discriminate].
  destruct (X9_result_holds_final_registers _ _ _ _ _ _ Hex) as (Hregs & Hkeys & _).
  exists doc, st. split; [reflexivity|].
  assert (Hdoc : doc !! register_key 2 = Some (VInt (-7)) /\ doc !! register_key 1 = None).
  { vm_compute in Hex. injection Hex as <- _. split; vm_compute; reflexivity. }
  exact Hdoc.
Defined.

Section Failure.

(** Whichever way the body of the loop ends, the trace has grown by
    the fields of its instruction. *)
Lemma exec_instr_trace (instr : Z) (st : vm) :
  dispatched (state_of (exec_instr instr st)) = dispatched st ++ [extract_fields instr].
Proof.
  destruct (extract_fields instr) as [[A B] C] eqn:Hf.
  rewrite (exec_instr_fields st instr A B C Hf). unfold_M.
  destruct (dispatch A B C (reached st (A, B, C))) as [[] s2|e s2] eqn:Hd.
  - apply dispatch_returned in Hd as (_ & Htr & _).
    destruct (record_register B s2) as [[] s3|e s3] eqn:Hrec.
    + apply record_register_returned in Hrec as (v & _ & ->). exact Htr.
    + apply record_register_raised in Hrec as (_ & ->). exact Htr.
  - apply dispatch_raised in Hd as (_ & ->). reflexivity.
Qed.

Lemma for_each_trace (ws : list Z) (st : vm) :
  exists l, dispatched (state_of (for_each exec_instr ws st)) = dispatched st ++ l /\
            (ws <> [] -> l <> []).
Proof.
  revert st. induction ws as [|w ws IH]; intros st.
  - exists []. rewrite app_nil_r. split; [reflexivity | congruence].
  - simpl. unfold_M. pose proof (exec_instr_trace w st) as Hw.
    destruct (exec_instr w st) as [[] s1|e s1]; simpl in Hw.
    + destruct (IH s1) as (l & Hl & _). exists (extract_fields w :: l).
      rewrite Hl, Hw, <- app_assoc. split; [reflexivity | discriminate].
    + exists [extract_fields w]. simpl. split; [exact Hw | discriminate].
Qed.

Lemma execute_trace (ws : list Z) (s e : Z) (st : vm) :
  ws <> [] -> dispatched st = [] ->
  dispatched (state_of (execute ws s e st)) <> [].
Proof.
  intros Hne Hst. unfold execute. unfold_M.
  destruct (for_each_trace ws st) as (l & Hl & Hnil). specialize (Hnil Hne).
  rewrite Hst in Hl. simpl in Hl.
  destruct (for_each exec_instr ws st) as [[] s1|err s1]; simpl in Hl.
  - pose proof (dump_memory_state (range s e) ∅ s1) as Hd.
    destruct (dump_memory (range s e) ∅ s1) as [d s2|err s2]; simpl in Hd; subst s2;
      simpl; congruence.
  - simpl. congruence.
Qed.

End Failure.

(** X10: when the loaded words are some words that stay within the
    memory followed by one that subscripts it at 1024 or beyond, the
    interpreter raises [IndexError] at that word and writes no result.
    The module-level memory is left as the words before it made it, and
    no later word is reached. *)
Theorem X10_out_of_bounds_stops_run
    (mem : list Z) (data : list byte) (pre post : list Z) (w s e : Z) :
  length mem = 1024%nat ->
  addresses_in_range mem s e = true ->
  Struct.load_instructions data = Some (pre ++ w :: post) ->
  Forall (fun x => out_of_bounds x = false) pre ->
  out_of_bounds w = true ->
  exists st,
    for_each exec_instr pre (start_state mem) = Returned tt st /\
    interpreter mem (Some data) s e =
      Raised IndexError {| halt_memory := memory st;
                           halt_dispatched := map extract_fields (pre ++ [w]) |}.
Proof.
  intros Hlen Hrange Hload Hsafe Hout.
  destruct (load_instructions_words data _ Hload) as (Hwords & _).
  assert (Hpos : Forall (fun x => 0 <= x) pre).
  { apply Forall_app in Hwords as [Hpre _].
    eapply Forall_impl; [exact Hpre|]. simpl. intros x Hx. lia. }
  destruct (for_each_in_bounds pre (start_state mem) eq_refl Hlen Hpos Hsafe)
    as (st & Hrun & Hr & Hm & Htr).
  exists st. split; [exact Hrun|].
  unfold interpreter. rewrite Hrange. simpl negb. cbv iota.
  destruct data as [|b data].
  { destruct pre; discriminate Hload. }
  rewrite Hload. unfold execute. unfold_M.
  rewrite for_each_app, Hrun. simpl for_each. unfold_M.
  rewrite (exec_instr_beyond st w Hr Hm Hout).
  unfold halt_of. simpl. rewrite Htr, map_app. reflexivity.
Qed.

Lemma X10_out_of_bounds_stops_run_witness :
  exists st,
    for_each exec_instr [10246; 20505] (start_state initial_memory) = Returned tt st /\
    interpreter initial_memory
      (Some [x06; x28; x00; x00; x19; x50; x00; x00; x08; x80; x3e; x00]%byte) 0 1 =
      Raised IndexError {| halt_memory := memory st;
                           halt_dispatched :=
                             map extract_fields ([10246; 20505] ++ [4096008]) |}.
Proof.
  apply (X10_out_of_bounds_stops_run initial_memory _ [10246; 20505] [] 4096008 0 1);
    [reflexivity | reflexivity | reflexivity | repeat constructor | reflexivity].
Defined.

(** X11: the interpreter reaches an instruction exactly when the dump
    range is accepted and the binary input exists, is not empty and has
    a length that is a multiple of 4.  In every other case it raises
    with nothing dispatched and the memory as it found it: the range
    [ValueError] when the range is refused, whatever the input is;
    with the range accepted, [FileNotFoundError] for a missing file,
    the [ValueError] of the empty file, and [struct.error] for a length
    that is no multiple of 4. *)
Theorem X11_loop_entered_iff (mem : list Z) (data : option (list byte)) (s e : Z) :
  (halt_dispatched (state_of (interpreter mem data s e)) <> [] <->
   addresses_in_range mem s e = true /\
   exists bytes, data = Some bytes /\ bytes <> [] /\ (length bytes mod 4 = 0)%nat) /\
  (addresses_in_range mem s e = false ->
     interpreter mem data s e =
       Raised (ValueError ("Addresses must be in range 0 to "
                           +:+ pretty (Z.of_nat (length mem) - 1)))
              {| halt_memory := mem; halt_dispatched := [] |}) /\
  (addresses_in_range mem s e = true -> data = None ->
     interpreter mem data s e =
       Raised FileNotFoundError {| halt_memory := mem; halt_dispatched := [] |}) /\
  (addresses_in_range mem s e = true -> data = Some [] ->
     interpreter mem data s e =
       Raised (ValueError "Binary file is empty!")
              {| halt_memory := mem; halt_dispatched := [] |}) /\
  (addresses_in_range mem s e = true ->
     forall bytes, data = Some bytes -> (length bytes mod 4 <> 0)%nat ->
     interpreter mem data s e =
       Raised struct_error {| halt_memory := mem; halt_dispatched := [] |}).
Proof.
  split; [|split; [|split; [|split]]].
  - unfold interpreter. split.
    + destruct (addresses_in_range mem s e); simpl; [|congruence].
      destruct data as [[|b bytes]|]; simpl; try congruence.
      destruct (Nat.eq_dec (length (b :: bytes) mod 4)%nat 0%nat) as [Hal|Hal].
      * intros _. split; [reflexivity|]. exists (b :: bytes). auto.
      * rewrite (load_instructions_fragment _ Hal). simpl. congruence.
    + intros (-> & bytes & -> & Hne & Hal). simpl.
      destruct bytes as [|b bytes]; [contradiction|].
      destruct (load_instructions_aligned _ Hal) as (ws & Hload & Hlen).
      rewrite Hload.
      assert (Hws : ws <> []) by (intros ->; simpl in Hlen; discriminate).
      pose proof (execute_trace ws s e (start_state mem) Hws eq_refl) as Htr.
      destruct (execute ws s e (start_state mem)); simpl in *; exact Htr.
  - intros Hr. unfold interpreter. rewrite Hr. reflexivity.
  - intros Hr ->. unfold interpreter. rewrite Hr. reflexivity.
  - intros Hr ->. unfold interpreter. rewrite Hr. reflexivity.
  - intros Hr bytes -> Hal. unfold interpreter. rewrite Hr. simpl negb. cbv iota.
    destruct bytes as [|b bytes]; [exfalso; apply Hal; reflexivity|].
    rewrite (load_instructions_fragment _ Hal). reflexivity.
Qed.

Lemma X11_loop_entered_iff_witness :
  interpreter initial_memory (Some []) 0 4 =
    Raised (ValueError "Binary file is empty!")
           {| halt_memory := initial_memory; halt_dispatched := [] |}.
Proof.
  destruct (X11_loop_entered_iff initial_memory (Some []) 0 4)
    as (_ & _ & _ & Hempty & _).
  apply Hempty; reflexivity.
Defined.

(** ** Further results: what the assembler writes *)

Import Listing.

Section Output.

Lemma assemble_line_word (line_num : nat) (line : string) :
  rejected line = false -> assemble_line line_num line = inr (line_word line).
Proof.
  unfold rejected, assemble_line, line_word, line_fields, blank.
  destruct (strip line) as [|c s]; [reflexivity|]. cbn [String.eqb negb andb].
  destruct (Nat.ltb_spec (length (split line)) 3) as [Hlt|Hge]; [discriminate|].
  cbn [orb]. intros Hex.
  destruct (parse_parts (split line)) as [[[a b] c']|] eqn:Hp; [reflexivity|].
  apply (parse_parts_none _ Hge) in Hp. congruence.
Qed.

Lemma line_word_blank (line : string) : blank line = true -> line_word line = None.
Proof. unfold line_word, line_fields. intros ->. reflexivity. Qed.

Lemma rejected_not_blank (line : string) : rejected line = true -> blank line = false.
Proof.
  unfold rejected, blank. intros H. apply andb_true_iff in H as [H _].
  apply negb_true_iff in H. exact H.
Qed.

(** The loop on a listing without a rejected line. *)
Lemma assemble_lines_spec (lines : list string) (line_num : nat)
    (instructions : list Z) (log : gmap string string) :
  (forall line, line ∈ lines -> rejected line = false) ->
  exists log',
    assemble_lines line_num lines instructions log =
      inr (instructions ++ omap line_word lines, log') /\
    (forall k line, lines !! k = Some line ->
       log' !! line_key (line_num + k) =
         match line_word line with
         | Some w => Some (render w)
         | None => log !! line_key (line_num + k)
         end) /\
    (forall key, (forall k, (k < length lines)%nat -> key <> line_key (line_num + k)) ->
       log' !! key = log !! key).
Proof.
  revert line_num instructions log.
  induction lines as [|line rest IH]; intros n instructions log Hall.
  - exists log. rewrite app_nil_r. split; [reflexivity|].
    split; [intros k line Hk; discriminate | reflexivity].
  - assert (Hline : rejected line = false) by (apply Hall; left).
    assert (Hrest : forall l, l ∈ rest -> rejected l = false)
      by (intros l Hl; apply Hall; right; exact Hl).
    cbn [assemble_lines]. rewrite (assemble_line_word n line Hline).
    cbn [omap list_omap].
    destruct (line_word line) as [w|] eqn:Hw.
    + destruct (IH (S n) (instructions ++ [w]) (<[line_key n := render w]> log) Hrest)
        as (log' & Hasm & Hin & Hout).
      exists log'. split; [rewrite Hasm, <- app_assoc; reflexivity|]. split.
      * intros [|k] l Hk.
        -- injection Hk as <-. rewrite Hw, Nat.add_0_r, Hout.
           ++ apply lookup_insert_eq.
           ++ intros k _ Heq. apply line_key_inj in Heq. lia.
        -- simpl in Hk. replace (n + S k)%nat with (S n + k)%nat by lia.
           rewrite (Hin k l Hk). destruct (line_word l); [reflexivity|].
           apply lookup_insert_ne. intros Heq. apply line_key_inj in Heq. lia.
      * intros key Hkey. rewrite Hout.
        -- apply lookup_insert_ne. intros Heq. apply (Hkey 0%nat); [simpl; lia|].
           rewrite Nat.add_0_r. congruence.
        -- intros k Hk. replace (S n + k)%nat with (n + S k)%nat by lia.
           apply Hkey. simpl. lia.
    + destruct (IH (S n) instructions log Hrest) as (log' & Hasm & Hin & Hout).
      exists log'. split; [exact Hasm|]. split.
      * intros [|k] l Hk.
        -- injection Hk as <-. rewrite Hw, Nat.add_0_r. apply Hout.
           intros k _ Heq. apply line_key_inj in Heq. lia.
        -- simpl in Hk. replace (n + S k)%nat with (S n + k)%nat by lia.
           apply (Hin k l Hk).
      * intros key Hkey. apply Hout.
        intros k Hk. replace (S n + k)%nat with (n + S k)%nat by lia.
        apply Hkey. simpl. lia.
Qed.

End Output.

(** X12: for a listing without a rejected line whose words are all
    below 2^32, the assembler returns.  The binary file holds the words
    of the lines that are not blank, in source order, 4 bytes each, and
    loads back as these words; the log has, for every such line and for
    no other key, the rendering of its word under the number the line
    has in the source, blank lines counted. *)
Theorem X12_assembler_output (lines : list string) (out : outputs) :
  (forall line, line ∈ lines -> rejected line = false) ->
  Forall (fun w => 0 <= w < 2 ^ 32) (omap line_word lines) ->
  exists data log,
    assembler (Some lines) out =
      Returned tt {| binary_file := Some data; log_file := Some log |} /\
    length data = (4 * length (omap line_word lines))%nat /\
    Struct.load_instructions data = Some (omap line_word lines) /\
    (forall k line, lines !! k = Some line ->
       log !! line_key k = render <$> line_word line) /\
    (forall key, is_Some (log !! key) ->
       exists k line, lines !! k = Some line /\ key = line_key k /\
                      is_Some (line_word line)).
Proof.
  intros Hall Hwords.
  destruct (assemble_lines_spec lines 0 [] ∅ Hall) as (log & Hasm & Hin & Hout).
  destruct (write_loop_in_range _ [] Hwords) as (data & Hwrite).
  destruct (write_loop_returned _ _ _ Hwrite) as (d & Hd & Hlen & Hload).
  simpl in Hd. subst d.
  assert (Hlog : forall k line, lines !! k = Some line ->
            log !! line_key k = render <$> line_word line).
  { intros k line Hk. specialize (Hin k line Hk). simpl in Hin. rewrite Hin.
    destruct (line_word line); [reflexivity | apply lookup_empty]. }
  exists data, log. split.
  - unfold assembler. rewrite Hasm. simpl app. rewrite Hwrite. reflexivity.
  - split; [exact Hlen|]. split; [exact Hload|]. split; [exact Hlog|].
    intros key Hkey.
    destruct (decide (key ∈ line_key <$> seq 0 (length lines))) as [Hyes|Hno].
    + apply list_elem_of_fmap in Hyes as (k & -> & Hk).
      apply elem_of_seq in Hk.
      destruct (lookup_lt_is_Some_2 lines k) as (line & Hline); [lia|].
      exists k, line. split; [exact Hline|]. split; [reflexivity|].
      rewrite (Hlog k line Hline) in Hkey.
      destruct (line_word line); [eauto|]. destruct Hkey as [? Hkey]. discriminate.
    + rewrite Hout in Hkey.
      * rewrite lookup_empty in Hkey. destruct Hkey as [? Hkey]. discriminate.
      * intros k Hk Heq. apply Hno. apply list_elem_of_fmap. exists k.
        split; [exact Heq|]. apply elem_of_seq. lia.
Qed.

Lemma X12_assembler_output_witness :
  exists data log,
    assembler (Some [newline; "0x06 0x00 0x05" +:+ newline]) no_outputs =
      Returned tt {| binary_file := Some data; log_file := Some log |} /\
    Struct.load_instructions data = Some [10246] /\
    log !! line_key 1 = Some "0x00002806"%string /\ log !! line_key 0 = None.
Proof.
  destruct (X12_assembler_output [newline; "0x06 0x00 0x05" +:+ newline] no_outputs)
    as (data & log & Hasm & _ & Hload & Hlog & _).
  - intros line Hin. apply elem_of_cons in Hin as [->|Hin]; [reflexivity|].
    apply list_elem_of_singleton in Hin as ->. vm_compute. reflexivity.
  - repeat constructor; vm_compute; congruence.
  - exists data, log. split; [exact Hasm|]. split; [exact Hload|]. split.
    + exact (Hlog 1%nat ("0x06 0x00 0x05" +:+ newline) eq_refl).
    + exact (Hlog 0%nat newline eq_refl).
Defined.

Section WriteFailure.


End WriteFailure.



(** X14: for a listing without a rejected line in which every line
    that is not blank gives an opcode below 32, a register below 64 and
    an operand below 2^21, none of them negative, the assembler returns
    and the words the interpreter loads from the binary file decode, in
    order, to exactly the fields written in the listing. *)
Theorem X14_listing_fields_survive (lines : list string) (out : outputs) :
  (forall line, line ∈ lines -> rejected line = false) ->
  Forall (fun f : Z * Z * Z =>
            0 <= f.1.1 < 32 /\ 0 <= f.1.2 < 64 /\ 0 <= f.2 < 2 ^ 21)
         (omap line_fields lines) ->
  exists data log ws,
    assembler (Some lines) out =
      Returned tt {| binary_file := Some data; log_file := Some log |} /\
    Struct.load_instructions data = Some ws /\
    map extract_fields ws = omap line_fields lines.
Proof.
  intros Hall Hfields.
  assert (Hwords : omap line_word lines =
                   map (fun f : Z * Z * Z => encode f.1.1 f.1.2 f.2)
                       (omap line_fields lines)).
  { clear. induction lines as [|line rest IH]; [reflexivity|].
    cbn [omap list_omap]. unfold line_word at 1.
    destruct (line_fields line) as [[[a b] c]|]; [|exact IH].
    simpl. rewrite IH. reflexivity. }
  assert (Hrange : Forall (fun w => 0 <= w < 2 ^ 32) (omap line_word lines)).
  { rewrite Hwords. apply Forall_fmap. eapply Forall_impl; [exact Hfields|].
    intros [[a b] c] (Ha & Hb & Hc). simpl in *.
    rewrite (encode_in_range_sum a b c Ha Hb ltac:(lia)).
    change (2 ^ 21) with 2097152 in Hc. change (2 ^ 32) with 4294967296. lia. }
  destruct (assemble_lines_spec lines 0 [] ∅ Hall) as (log & Hasm & _).
  destruct (write_loop_in_range _ [] Hrange) as (data & Hwrite).
  destruct (write_loop_returned _ _ _ Hwrite) as (d & Hd & _ & Hload).
  simpl in Hd. subst d.
  exists data, log, (omap line_word lines). split.
  - unfold assembler. rewrite Hasm. simpl app. rewrite Hwrite. reflexivity.
  - split; [exact Hload|]. rewrite Hwords.
    clear - Hfields. induction Hfields as [|[[a b] c] fs (Ha & Hb & Hc) _ IH];
      [reflexivity|].
    simpl in *. rewrite IH. f_equal.
    rewrite extract_fields_encode_raw.
    rewrite (Z.div_small a 32), (Z.div_small b 64), (Z.div_small a 2048) by lia.
    rewrite !Z.lor_0_r, (Z.mod_small a 32), (Z.mod_small b 64) by lia.
    reflexivity.
Qed.

Lemma X14_listing_fields_survive_witness :
  exists data log ws,
    assembler (Some ["0x06 0x00 0x05"; "0x19 0x00 0x0A"]%string) no_outputs =
      Returned tt {| binary_file := Some data; log_file := Some log |} /\
    Struct.load_instructions data = Some ws /\
    map extract_fields ws = [(6, 0, 5); (25, 0, 10)].
Proof.
  apply (X14_listing_fields_survive ["0x06 0x00 0x05"; "0x19 0x00 0x0A"]%string no_outputs).
  - intros line Hin. apply elem_of_cons in Hin as [->|Hin]; [reflexivity|].
    apply list_elem_of_singleton in Hin as ->. vm_compute. reflexivity.
  - repeat constructor; vm_compute; congruence.
Defined.

Section BlankLines.

Lemma omap_line_word_filter_blank (lines : list string) :
  omap line_word (filter (fun l => blank l = false) lines) = omap line_word lines.
Proof.
  induction lines as [|line rest IH]; [reflexivity|].
  rewrite filter_cons. destruct (decide (blank line = false)) as [Hb|Hb].
  - cbn [omap list_omap]. rewrite IH. reflexivity.
  - apply not_false_is_true in Hb. cbn [omap list_omap].
    rewrite (line_word_blank line Hb). exact IH.
Qed.

Lemma assembler_rejected (lines : list string) (out : outputs) :
  (exists line, line ∈ lines /\ rejected line = true) ->
  exists e, assembler (Some lines) out = Raised e out.
Proof.
  intros Hbad.
  destruct (assemble_lines_rejected lines 0 [] ∅ Hbad) as (k & line & _ & _ & _ & Hasm).
  eexists. unfold assembler. rewrite Hasm. reflexivity.
Qed.

Lemma assembler_accepted (lines : list string) (out : outputs) :
  (forall line, line ∈ lines -> rejected line = false) ->
  exists log,
    assembler (Some lines) out =
      match for_each write_instr (omap line_word lines) [] with
      | Raised e content =>
          Raised e {| binary_file := Some content; log_file := log_file out |}
      | Returned _ content =>
          Returned tt {| binary_file := Some content; log_file := Some log |}
      end.
Proof.
  intros Hall.
  destruct (assemble_lines_spec lines 0 [] ∅ Hall) as (log & Hasm & _).
  exists log. unfold assembler. rewrite Hasm. reflexivity.
Qed.

End BlankLines.

(** X15: taking the blank lines out of a listing changes neither
    whether the assembler returns nor what it leaves in the binary
    file; blank lines only shift the line numbers of the log and of the
    error messages. *)
Theorem X15_blank_lines_leave_binary_unchanged (lines : list string) (out : outputs) :
  binary_file (state_of (assembler (Some (filter (fun l => blank l = false) lines)) out))
    = binary_file (state_of (assembler (Some lines) out)) /\
  ((exists u, assembler (Some (filter (fun l => blank l = false) lines)) out
              = Returned tt u) <->
   (exists u, assembler (Some lines) out = Returned tt u)).
Proof.
  set (kept := filter (fun l => blank l = false) lines).
  destruct (existsb rejected lines) eqn:Hex.
  - apply existsb_exists in Hex as (bad & Hin & Hbad).
    apply list_elem_of_In in Hin.
    assert (Hkept : exists line, line ∈ kept /\ rejected line = true).
    { exists bad. split; [|exact Hbad]. apply list_elem_of_filter.
      split; [apply rejected_not_blank; exact Hbad | exact Hin]. }
    destruct (assembler_rejected lines out (ex_intro _ bad (conj Hin Hbad))) as (e1 & H1).
    destruct (assembler_rejected kept out Hkept) as (e2 & H2).
    rewrite H1, H2. split; [reflexivity|].
    split; intros (u & Hu); discriminate.
  - assert (Hall : forall line, line ∈ lines -> rejected line = false).
    { intros line Hin. destruct (rejected line) eqn:Hr; [|reflexivity].
      assert (Hc : existsb rejected lines = true).
      { apply existsb_exists. exists line. split; [apply list_elem_of_In; exact Hin | exact Hr]. }
      congruence. }
    assert (Hallk : forall line, line ∈ kept -> rejected line = false).
    { intros line Hin. apply list_elem_of_filter in Hin as [_ Hin]. auto. }
    destruct (assembler_accepted lines out Hall) as (log1 & H1).
    destruct (assembler_accepted kept out Hallk) as (log2 & H2).
    rewrite H1, H2. unfold kept. rewrite omap_line_word_filter_blank.
    destruct (for_each write_instr (omap line_word lines) []) as [[] c|e c]; simpl.
    + split; [reflexivity|]. split; intros _; eauto.
    + split; [reflexivity|]. split; intros (u & Hu); discriminate.
Qed.

(** ** Further results: the script as a whole *)

Import Main.

Section Script.

Lemma process_eta (p : process) :
  {| listings := listings p; files := files p;
     proc_memory := proc_memory p; usage_printed := usage_printed p |} = p.
Proof. destruct p. reflexivity. Qed.

Lemma execute_in_bounds (ws : list Z) (s e : Z) (mem : list Z) :
  length mem = 1024%nat ->
  addresses_in_range mem s e = true ->
  Forall (fun w => 0 <= w) ws ->
  Forall (fun w => out_of_bounds w = false) ws ->
  exists doc st, execute ws s e (start_state mem) = Returned doc st /\
                 length (memory st) = 1024%nat.
Proof.
  intros Hlen Hrange Hpos Hsafe.
  destruct (for_each_in_bounds ws (start_state mem) eq_refl Hlen Hpos Hsafe)
    as (st & Hrun & _ & Hm & _).
  apply addresses_in_range_spec in Hrange. rewrite Hlen in Hrange.
  destruct (dump_memory_inside (range s e) ∅ st) as (d & Hd).
  { intros a Ha. apply elem_of_seqZ in Ha. rewrite Hm. lia. }
  eexists _, _. unfold execute. unfold_M. rewrite Hrun, Hd.
  unfold set_result. unfold_M. split; [reflexivity | exact Hm].
Qed.

Lemma truthy_some (s : string) : s <> EmptyString -> truthy (Some s) = true.
Proof. intros Hs. destruct s; [contradiction | reflexivity]. Qed.

Lemma any_path_false_wants (a : args) :
  any_path a = false -> wants_assembler a = false /\ wants_interpreter a = false.
Proof.
  unfold any_path, wants_assembler, wants_interpreter.
  destruct (truthy (args_input a)), (truthy (args_binary a)), (truthy (args_log a)),
    (truthy (args_binary_input a)), (truthy (args_result a)); simpl;
    try discriminate; intros _; split; try reflexivity.
  all: rewrite ?andb_false_r; reflexivity.
Qed.

End Script.

Section Message.

Variable dump_log : gmap string string -> list byte.
Variable dump_result : gmap string value -> list byte.
Variable file_of : string -> string.

Lemma truthy_false (o : option string) : truthy o = false <-> not_given o.
Proof.
  unfold truthy, not_given. destruct o as [s|].
  - rewrite negb_false_iff, String.eqb_eq. split.
    + intros ->. right. reflexivity.
    + intros [H|H]; [discriminate | congruence].
  - split; [intros _; left; reflexivity | reflexivity].
Qed.

Lemma given_none (o : option Z) : bool_decide (is_Some o) = false <-> o = None.
Proof.
  rewrite bool_decide_eq_false. destruct o as [z|].
  - split; [|discriminate]. intros H. exfalso. apply H. eexists. reflexivity.
  - split; [reflexivity|]. intros _ [z Hz]. discriminate.
Qed.

Lemma any_path_spec (a : args) :
  any_path a = false <->
  not_given (args_input a) /\ not_given (args_binary a) /\ not_given (args_log a) /\
  not_given (args_binary_input a) /\ not_given (args_result a).
Proof. unfold any_path. rewrite !orb_false_iff, !truthy_false. tauto. Qed.

Lemma wants_assembler_spec (a : args) :
  wants_assembler a = false <->
  not_given (args_input a) \/ not_given (args_binary a) \/ not_given (args_log a).
Proof. unfold wants_assembler. rewrite !andb_false_iff, !truthy_false. tauto. Qed.

Lemma wants_interpreter_spec (a : args) :
  wants_interpreter a = false <->
  not_given (args_binary_input a) \/ args_start_address a = None \/
  args_end_address a = None \/ not_given (args_result a).
Proof.
  unfold wants_interpreter. rewrite !andb_false_iff, !truthy_false, !given_none. tauto.
Qed.


Lemma call_assembler_usage (i b l : string) (p : process) :
  usage_printed (state_of (call_assembler dump_log file_of i b l p)) = usage_printed p.
Proof.
  unfold call_assembler.
  destruct (assembler (listings p !! file_of i) no_outputs); reflexivity.
Qed.

Lemma call_interpreter_usage (b : string) (s e : Z) (r : string) (p : process) :
  usage_printed (state_of (call_interpreter dump_result file_of b s e r p))
    = usage_printed p.
Proof.
  unfold call_interpreter.
  destruct (interpreter (proc_memory p) (files p !! file_of b) s e); reflexivity.
Qed.

Lemma main_usage (a : args) (p : process) :
  usage_printed (state_of (main dump_log dump_result file_of a p)) =
    usage_printed p || negb (any_path a).
Proof.
  destruct (any_path a) eqn:Hany.
  - rewrite orb_false_r. unfold main. rewrite Hany. simpl negb. unfold_M.
    assert (H1 : forall q, usage_printed q = usage_printed p ->
              usage_printed (state_of
                (match (if wants_interpreter a
                        then call_interpreter dump_result file_of
                               (default EmptyString (args_binary_input a))
                               (default 0 (args_start_address a))
                               (default 0 (args_end_address a))
                               (default EmptyString (args_result a))
                        else fun s => Returned tt s) q with
                 | Returned _ s' => Returned tt s'
                 | Raised e s' => Raised e s'
                 end)) = usage_printed p).
    { intros q Hq. destruct (wants_interpreter a); [|exact Hq].
      pose proof (call_interpreter_usage (default EmptyString (args_binary_input a))
                    (default 0 (args_start_address a)) (default 0 (args_end_address a))
                    (default EmptyString (args_result a)) q) as Hc.
      destruct (call_interpreter _ _ _ _ _ _ q); simpl in *; congruence. }
    destruct (wants_assembler a).
    + pose proof (call_assembler_usage (default EmptyString (args_input a))
                    (default EmptyString (args_binary a))
                    (default EmptyString (args_log a)) p) as Hc.
      destruct (call_assembler _ _ _ _ _ p) as [[] q|err q]; simpl in Hc.
      * apply H1. exact Hc.
      * exact Hc.
    + apply H1. reflexivity.
  - destruct (any_path_false_wants a Hany) as (Hw1 & Hw2).
    unfold main. rewrite Hw1, Hw2, Hany. rewrite orb_true_r. reflexivity.
Qed.

End Message.

(** X16: with all seven options given, none of the paths empty, the
    interpreter's input path naming the file the assembler writes its
    binary to, and the log path naming another file than the binary
    path does, a listing without a rejected line, with fields within
    their widths, at least one line that is not blank and no memory
    subscript of 1024 or more, on a memory of 1024 cells and an
    accepted dump range: the script returns without a message; the
    binary file loads as the words of the listing, and the result file
    holds the serialised result of running these words on the memory.
    Files are told apart by what their paths name, not by how the
    paths are written. *)
Theorem X16_assemble_then_run
    (dump_log : gmap string string -> list byte)
    (dump_result : gmap string value -> list byte)
    (file_of : string -> string)
    (p : process) (i b l bi r : string) (s e : Z) (lines : list string) :
  i <> EmptyString -> b <> EmptyString -> l <> EmptyString ->
  bi <> EmptyString -> r <> EmptyString ->
  file_of bi = file_of b ->
  file_of l <> file_of b ->
  listings p !! file_of i = Some lines ->
  (forall line, line ∈ lines -> rejected line = false) ->
  Forall (fun f : Z * Z * Z =>
            0 <= f.1.1 < 32 /\ 0 <= f.1.2 < 64 /\ 0 <= f.2 < 2 ^ 21)
         (omap line_fields lines) ->
  omap line_word lines <> [] ->
  Forall (fun w => out_of_bounds w = false) (omap line_word lines) ->
  length (proc_memory p) = 1024%nat ->
  addresses_in_range (proc_memory p) s e = true ->
  exists data log doc st,
    Struct.load_instructions data = Some (omap line_word lines) /\
    execute (omap line_word lines) s e (start_state (proc_memory p)) = Returned doc st /\
    main dump_log dump_result file_of
      {| args_input := Some i; args_binary := Some b; args_log := Some l;
         args_start_address := Some s; args_end_address := Some e;
         args_binary_input := Some bi; args_result := Some r |} p =
      Returned tt
        {| listings := listings p;
           files := <[file_of r := dump_result doc]>
                      (<[file_of l := dump_log log]> (<[file_of b := data]> (files p)));
           proc_memory := memory st;
           usage_printed := usage_printed p |}.
Proof.
  intros Hi Hb Hl Hbi Hr Hsame Hlb Hlist Hall Hfields Hne Hsafe Hlen Hrange.
  assert (Hwords : omap line_word lines =
                   map (fun f : Z * Z * Z => encode f.1.1 f.1.2 f.2)
                       (omap line_fields lines)).
  { clear. induction lines as [|line rest IH]; [reflexivity|].
    cbn [omap list_omap]. unfold line_word at 1.
    destruct (line_fields line) as [[[x y] z]|]; [|exact IH].
    simpl. rewrite IH. reflexivity. }
  assert (Hin32 : Forall (fun w => 0 <= w < 2 ^ 32) (omap line_word lines)).
  { rewrite Hwords. apply Forall_fmap. eapply Forall_impl; [exact Hfields|].
    intros [[x y] z] (Hx & Hy & Hz). simpl in *.
    rewrite (encode_in_range_sum x y z Hx Hy ltac:(lia)).
    change (2 ^ 21) with 2097152 in Hz. change (2 ^ 32) with 4294967296. lia. }
  assert (Hpos : Forall (fun w => 0 <= w) (omap line_word lines)).
  { eapply Forall_impl; [exact Hin32|]. simpl. intros w Hw. lia. }
  destruct (assembler_accepted lines no_outputs Hall) as (log & Hasm).
  destruct (write_loop_in_range _ [] Hin32) as (data & Hwrite).
  rewrite Hwrite in Hasm.
  destruct (write_loop_returned _ _ _ Hwrite) as (d & Hd & Hdlen & Hload).
  simpl in Hd. subst d.
  destruct (execute_in_bounds _ s e (proc_memory p) Hlen Hrange Hpos Hsafe)
    as (doc & st & Hex & _).
  assert (Hdata : data <> []).
  { intros ->. simpl in Hdlen. destruct (omap line_word lines); [contradiction | discriminate]. }
  exists data, log, doc, st. split; [exact Hload|]. split; [exact Hex|].
  unfold main, wants_assembler, wants_interpreter, any_path. cbn [args_input args_binary
    args_log args_start_address args_end_address args_binary_input args_result default].
  rewrite !(truthy_some i Hi), !(truthy_some b Hb), !(truthy_some l Hl),
    !(truthy_some bi Hbi), !(truthy_some r Hr).
  simpl. unfold_M. unfold call_assembler. rewrite Hlist, Hasm. simpl.
  unfold call_interpreter. simpl. rewrite Hsame.
  rewrite lookup_insert_ne by exact Hlb. rewrite lookup_insert_eq.
  unfold interpreter. rewrite Hrange. simpl negb. cbv iota.
  destruct data as [|b0 data]; [contradiction|].
  rewrite Hload, Hex. reflexivity.
Qed.

(** The theorem on a run whose interpreter is given [./p.bin] where
    the assembler was given [p.bin], with paths resolved by dropping a
    leading [./]. *)
Lemma X16_assemble_then_run_witness :
  exists (data : list byte) (log : gmap string string)
         (doc : gmap string value) (st : vm),
    Struct.load_instructions data =
      Some (omap line_word ["0x06 0x00 0x05"; "0x19 0x00 0x0A"]%string) /\
    execute (omap line_word ["0x06 0x00 0x05"; "0x19 0x00 0x0A"]%string) 10 11
      (start_state initial_memory) = Returned doc st /\
    main (fun _ => []) (fun _ => [])
      (fun path => match path with
                   | String "."%char (String "/"%char rest) => rest
                   | _ => path
                   end)
      {| args_input := Some "p.asm"%string; args_binary := Some "p.bin"%string;
         args_log := Some "p.log"%string;
         args_start_address := Some 10; args_end_address := Some 11;
         args_binary_input := Some "./p.bin"%string; args_result := Some "p.res"%string |}
      {| listings := {[ "p.asm"%string := ["0x06 0x00 0x05"; "0x19 0x00 0x0A"]%string ]};
         files := ∅; proc_memory := initial_memory; usage_printed := false |} =
      Returned tt
        {| listings := {[ "p.asm"%string := ["0x06 0x00 0x05"; "0x19 0x00 0x0A"]%string ]};
           files := <["p.res"%string := []]>
                      (<["p.log"%string := []]> (<["p.bin"%string := data]> ∅));
           proc_memory := memory st;
           usage_printed := false |}.
Proof.
  destruct (X16_assemble_then_run (fun _ => []) (fun _ => [])
           (fun path => match path with
                        | String "."%char (String "/"%char rest) => rest
                        | _ => path
                        end)
           {| listings := {[ "p.asm"%string := ["0x06 0x00 0x05"; "0x19 0x00 0x0A"]%string ]};
              files := ∅; proc_memory := initial_memory; usage_printed := false |}
           "p.asm" "p.bin" "p.log" "./p.bin" "p.res" 10 11
           ["0x06 0x00 0x05"; "0x19 0x00 0x0A"]%string)
    as (data & log & doc & st & Hload & Hex & Hmain);
    try discriminate; try reflexivity.
  - intros line Hin. apply elem_of_cons in Hin as [->|Hin]; [reflexivity|].
    apply list_elem_of_singleton in Hin as ->. vm_compute. reflexivity.
  - repeat constructor; vm_compute; congruence.
  - repeat constructor.
  - exists data, log, doc, st. split; [exact Hload|]. split; [exact Hex | exact Hmain].
Defined.

(** When the log path names the file the binary path names, the log
    overwrites the binary file and the interpreter reads the log: the
    condition on the two paths cannot be dropped, and two spellings of
    one path do not meet it. *)
Example log_over_binary_file :
  main (fun _ => []) (fun _ => [])
    (fun path => match path with
                 | String "."%char (String "/"%char rest) => rest
                 | _ => path
                 end)
    {| args_input := Some "p.asm"%string; args_binary := Some "p.bin"%string;
       args_log := Some "./p.bin"%string;
       args_start_address := Some 10; args_end_address := Some 11;
       args_binary_input := Some "p.bin"%string; args_result := Some "p.res"%string |}
    {| listings := {[ "p.asm"%string := ["0x06 0x00 0x05"]%string ]};
       files := ∅; proc_memory := initial_memory; usage_printed := false |} =
  Raised (ValueError "Binary file is empty!")
    {| listings := {[ "p.asm"%string := ["0x06 0x00 0x05"]%string ]};
       files := {[ "p.bin"%string := [] ]};
       proc_memory := initial_memory; usage_printed := false |}.
Proof. vm_compute. reflexivity. Qed.



(** X18: however the script ends, it has printed its message exactly
    when it had been printed before or each of the options input,
    binary, log, binary_input and result is absent or the empty
    string; the two addresses play no part in it, so addresses given
    alone get the message.  When one of input, binary and log is absent
    or empty, and one of binary_input and result is absent or empty or
    one of the two addresses is absent, the script returns with
    listings, files and memory as they were: a path given alone, such
    as an input without a log, gets no reaction at all. *)
Theorem X18_message_and_incomplete_options
    (dump_log : gmap string string -> list byte)
    (dump_result : gmap string value -> list byte)
    (file_of : string -> string)
    (a : args) (p : process) :
  (usage_printed (state_of (main dump_log dump_result file_of a p)) = true <->
   usage_printed p = true \/
   ((args_input a = None \/ args_input a = Some EmptyString) /\
    (args_binary a = None \/ args_binary a = Some EmptyString) /\
    (args_log a = None \/ args_log a = Some EmptyString) /\
    (args_binary_input a = None \/ args_binary_input a = Some EmptyString) /\
    (args_result a = None \/ args_result a = Some EmptyString))) /\
  (((args_input a = None \/ args_input a = Some EmptyString) \/
    (args_binary a = None \/ args_binary a = Some EmptyString) \/
    (args_log a = None \/ args_log a = Some EmptyString)) ->
   ((args_binary_input a = None \/ args_binary_input a = Some EmptyString) \/
    args_start_address a = None \/ args_end_address a = None \/
    (args_result a = None \/ args_result a = Some EmptyString)) ->
   exists u,
     main dump_log dump_result file_of a p =
       Returned tt {| listings := listings p; files := files p;
                      proc_memory := proc_memory p; usage_printed := u |}).
Proof.
  split.
  - rewrite main_usage, orb_true_iff, negb_true_iff, any_path_spec. reflexivity.
  - intros Hw1 Hw2.
    apply (wants_assembler_spec a) in Hw1. apply (wants_interpreter_spec a) in Hw2.
    exists (usage_printed p || negb (any_path a)).
    unfold main. rewrite Hw1, Hw2.
    destruct (any_path a); simpl.
    + rewrite orb_false_r, process_eta. reflexivity.
    + rewrite orb_true_r. reflexivity.
Qed.

Lemma X18_message_and_incomplete_options_witness :
  exists u,
    main (fun _ => []) (fun _ => []) (fun path => path)
      {| args_input := Some "p.asm"%string; args_binary := Some "p.bin"%string;
         args_log := None;
         args_start_address := Some 0; args_end_address := Some 1;
         args_binary_input := Some "p.bin"%string; args_result := Some EmptyString |}
      {| listings := ∅; files := ∅; proc_memory := initial_memory;
         usage_printed := false |} =
    Returned tt {| listings := ∅; files := ∅; proc_memory := initial_memory;
                   usage_printed := u |}.
Proof.
  apply (proj2 (X18_message_and_incomplete_options (fun _ => []) (fun _ => [])
                  (fun path => path)
                  {| args_input := Some "p.asm"%string; args_binary := Some "p.bin"%string;
                     args_log := None;
                     args_start_address := Some 0; args_end_address := Some 1;
                     args_binary_input := Some "p.bin"%string;
                     args_result := Some EmptyString |}
                  {| listings := ∅; files := ∅; proc_memory := initial_memory;
                     usage_printed := false |})).
  - right. right. left. reflexivity.
  - right. right. right. right. reflexivity.
Defined.

(** ** Further results: the size of the values *)

Section Values.

Lemma getitem_Forall (P : Z -> Prop) (l : list Z) (i v : Z) :
  Forall P l -> getitem l i = Some v -> P v.
Proof.
  unfold getitem. intros Hl. destruct (index (length l) i) as [n|]; [|discriminate].
  simpl. intros Hv. exact (Forall_lookup_1 P l n v Hl Hv).
Qed.

Lemma setitem_Forall (P : Z -> Prop) (l l' : list Z) (i v : Z) :
  Forall P l -> P v -> setitem l i v = Some l' -> Forall P l'.
Proof.
  unfold setitem. intros Hl Hv. destruct (index (length l) i) as [n|]; [|discriminate].
  simpl. intros [= <-]. apply Forall_insert; assumption.
Qed.

Lemma dispatch_small (st st' : vm) (A B C : Z) :
  0 <= C < 2 ^ 21 -> small_state st ->
  dispatch A B C st = Returned tt st' -> small_state st'.
Proof.
  intros HC [Hr Hm].
  assert (HsC : small C) by (unfold small; lia).
  unfold dispatch, get_register, get_memory, set_register, set_memory. unfold_M.
  repeat match goal with
         | |- context [Z.eqb ?a ?b] => destruct (Z.eqb_spec a b)
         | |- context [getitem ?l ?i] =>
             let H := fresh "Hget" in destruct (getitem l i) eqn:H
         | |- context [setitem ?l ?i ?v] =>
             let H := fresh "Hset" in destruct (setitem l i v) eqn:H
         end;
    intros [= <-]; split; simpl; try assumption;
    repeat match goal with
           | H : getitem _ _ = Some _ |- _ =>
               first [ apply (getitem_Forall small _ _ _ Hr) in H
                     | apply (getitem_Forall small _ _ _ Hm) in H ]
           end;
    match goal with
    | H : setitem (register _) _ ?v = Some _ |- _ =>
        apply (setitem_Forall small _ _ _ v Hr) in H; [exact H|]
    | H : setitem (memory _) _ ?v = Some _ |- _ =>
        apply (setitem_Forall small _ _ _ v Hm) in H; [exact H|]
    end;
    unfold small in *; lia.
Qed.

Lemma exec_instr_small (instr : Z) (st : vm) :
  0 <= instr < 2 ^ 32 -> small_state st ->
  small_state (state_of (exec_instr instr st)).
Proof.
  intros Hw Hst.
  pose proof (extract_fields_range instr Hw) as Hrange.
  destruct (extract_fields instr) as [[A B] C] eqn:Hf.
  destruct Hrange as (_ & _ & HC).
  rewrite (exec_instr_fields st instr A B C Hf). unfold_M.
  destruct (dispatch A B C (reached st (A, B, C))) as [[] s2|e s2] eqn:Hd.
  - apply (dispatch_small _ _ _ _ _ HC) in Hd; [|exact Hst].
    destruct (record_register B s2) as [[] s3|e s3] eqn:Hrec.
    + apply record_register_returned in Hrec as (v & _ & ->). exact Hd.
    + apply record_register_raised in Hrec as (_ & ->). exact Hd.
  - apply dispatch_raised in Hd as (_ & ->). exact Hst.
Qed.

Lemma for_each_small (ws : list Z) (st : vm) :
  Forall (fun w => 0 <= w < 2 ^ 32) ws -> small_state st ->
  small_state (state_of (for_each exec_instr ws st)).
Proof.
  revert st. induction ws as [|w ws IH]; intros st Hws Hst; [exact Hst|].
  apply Forall_cons in Hws as [Hw Hws].
  simpl. unfold_M. pose proof (exec_instr_small w st Hw Hst) as H1.
  destruct (exec_instr w st) as [[] s1|e s1]; simpl in H1; [|exact H1].
  apply IH; assumption.
Qed.

Lemma execute_small (ws : list Z) (s e : Z) (st : vm) :
  Forall (fun w => 0 <= w < 2 ^ 32) ws -> small_state st ->
  small_state (state_of (execute ws s e st)).
Proof.
  intros Hws Hst. unfold execute. unfold_M.
  pose proof (for_each_small ws st Hws Hst) as H1.
  destruct (for_each exec_instr ws st) as [[] s1|err s1]; simpl in H1; [|exact H1].
  pose proof (dump_memory_state (range s e) ∅ s1) as Hd.
  destruct (dump_memory (range s e) ∅ s1) as [d s2|err s2]; simpl in Hd; subst s2;
    exact H1.
Qed.

Lemma interpreter_small (mem : list Z) (data : option (list byte)) (s e : Z) :
  Forall small mem ->
  Forall small (halt_memory (state_of (interpreter mem data s e))).
Proof.
  intros Hmem. unfold interpreter.
  destruct (addresses_in_range mem s e); simpl; [|exact Hmem].
  destruct data as [[|b data]|]; try exact Hmem.
  destruct (Struct.load_instructions (b :: data)) as [ws|] eqn:Hload; [|exact Hmem].
  destruct (load_instructions_words _ _ Hload) as (Hws & _).
  assert (Hst : small_state (start_state mem)).
  { split; [|exact Hmem]. apply Forall_replicate. unfold small. lia. }
  pose proof (execute_small ws s e (start_state mem) Hws Hst) as [_ Hm].
  destruct (execute ws s e (start_state mem)); simpl in *; exact Hm.
Qed.

Lemma session_small (calls : list invocation) (mem0 : list Z) (k : nat)
    (mem : list Z) (o : outcome halt (gmap string value)) :
  Forall small mem0 ->
  session mem0 calls !! k = Some (mem, o) ->
  Forall small mem /\ Forall small (halt_memory (state_of o)).
Proof.
  revert mem0 k. induction calls as [|c calls IH]; intros mem0 k Hm0 Hk; [discriminate|].
  destruct k as [|k]; simpl in Hk.
  - injection Hk as <- <-. split; [exact Hm0 | apply interpreter_small; exact Hm0].
  - eapply IH; [|exact Hk]. apply interpreter_small. exact Hm0.
Qed.

End Values.

(** X19: whatever binary inputs a process feeds to the interpreter, in
    any number of calls, every memory cell holds a value strictly
    between -2^21 and 2^21 before and after every call, and so does
    every register when a run ends and every register value in a
    result: a value is an operand, a copy, or the negation of one. *)
Theorem X19_values_stay_small (calls : list invocation) (k : nat) (mem : list Z)
    (o : outcome halt (gmap string value)) :
  session initial_memory calls !! k = Some (mem, o) ->
  Forall small mem /\ Forall small (halt_memory (state_of o)) /\
  forall ws s e doc st,
    Forall (fun w => 0 <= w < 2 ^ 32) ws ->
    execute ws s e (start_state mem) = Returned doc st ->
    Forall small (register st) /\
    forall B v, doc !! register_key B = Some (VInt v) -> small v.
Proof.
  intros Hk.
  assert (H0 : Forall small initial_memory).
  { apply Forall_replicate. unfold small. lia. }
  destruct (session_small calls initial_memory k mem o H0 Hk) as (Hmem & Hafter).
  split; [exact Hmem|]. split; [exact Hafter|].
  intros ws s e doc st Hws Hex.
  assert (Hst : small_state (start_state mem)).
  { split; [|exact Hmem]. apply Forall_replicate. unfold small. lia. }
  pose proof (execute_small ws s e (start_state mem) Hws Hst) as Hsmall.
  rewrite Hex in Hsmall. simpl in Hsmall. destruct Hsmall as [Hreg _].
  split; [exact Hreg|].
  intros B v Hv.
  destruct (execute_returned _ _ _ _ _ _ Hex) as (st1 & d & Hrun & _ & -> & Hregs & _).
  rewrite lookup_insert_ne in Hv by (apply not_eq_sym, register_key_not_memory).
  destruct (for_each_snapshot ws (start_state mem) st1) as (Hinv & _);
    [intros key val Hkey; cbn [result start_state] in Hkey;
     rewrite lookup_empty in Hkey; discriminate | exact Hrun |].
  destruct (Hinv _ _ Hv) as (B' & v' & _ & _ & Hval & Hlook).
  injection Hval as ->. rewrite <- Hregs in Hlook.
  exact (Forall_lookup_1 small _ _ _ Hreg Hlook).
Qed.

Lemma X19_values_stay_small_witness :
  Forall small (halt_memory (state_of
    (interpreter initial_memory (Some [x06; x28; x00; x00; x19; x50; x00; x00]%byte) 0 1))).
Proof.
  destruct (X19_values_stay_small
              [ {| binary_data := Some [x06; x28; x00; x00; x19; x50; x00; x00]%byte;
                   start_address := 0; end_address := 1 |} ] 0 initial_memory
              (interpreter initial_memory
                 (Some [x06; x28; x00; x00; x19; x50; x00; x00]%byte) 0 1))
    as (_ & Hafter & _); [reflexivity|].
  exact Hafter.
Defined.

(** ** Further results: programs that do not write, and fixed widths *)

Section ReadOnly.

Lemma dispatch_memory_kept (st : vm) (A B C : Z) :
  A <> 25 -> memory (state_of (dispatch A B C st)) = memory st.
Proof.
  intros HA.
  unfold dispatch, get_register, get_memory, set_register, set_memory. unfold_M.
  repeat match goal with
         | |- context [Z.eqb ?a ?b] => destruct (Z.eqb_spec a b)
         | |- context [getitem ?l ?i] => destruct (getitem l i)
         | |- context [setitem ?l ?i ?v] => destruct (setitem l i v)
         end; try reflexivity; lia.
Qed.

Lemma exec_instr_memory_kept (instr : Z) (st : vm) :
  (extract_fields instr).1.1 <> 25 ->
  memory (state_of (exec_instr instr st)) = memory st.
Proof.
  destruct (extract_fields instr) as [[A B] C] eqn:Hf. simpl. intros HA.
  rewrite (exec_instr_fields st instr A B C Hf). unfold_M.
  pose proof (dispatch_memory_kept (reached st (A, B, C)) A B C HA) as Hd.
  destruct (dispatch A B C (reached st (A, B, C))) as [[] s2|e s2]; simpl in Hd;
    [|exact Hd].
  destruct (record_register B s2) as [[] s3|e s3] eqn:Hrec.
  - apply record_register_returned in Hrec as (v & _ & ->). exact Hd.
  - apply record_register_raised in Hrec as (_ & ->). exact Hd.
Qed.

Lemma for_each_memory_kept (ws : list Z) (st : vm) :
  Forall (fun w => (extract_fields w).1.1 <> 25) ws ->
  memory (state_of (for_each exec_instr ws st)) = memory st.
Proof.
  revert st. induction ws as [|w ws IH]; intros st Hws; [reflexivity|].
  apply Forall_cons in Hws as [Hw Hws]. simpl. unfold_M.
  pose proof (exec_instr_memory_kept w st Hw) as H1.
  destruct (exec_instr w st) as [[] s1|e s1]; simpl in H1; [|exact H1].
  rewrite (IH s1 Hws). exact H1.
Qed.

End ReadOnly.

(** X20: a binary input none of whose words has opcode 25 leaves the
    module-level memory exactly as the call found it, whether the run
    returns or raises. *)
Theorem X20_no_write_opcode_keeps_memory
    (mem : list Z) (data : list byte) (ws : list Z) (s e : Z) :
  Struct.load_instructions data = Some ws ->
  Forall (fun w => (extract_fields w).1.1 <> 25) ws ->
  halt_memory (state_of (interpreter mem (Some data) s e)) = mem.
Proof.
  intros Hload Hws. unfold interpreter.
  destruct (addresses_in_range mem s e); simpl; [|reflexivity].
  destruct data as [|b data]; [reflexivity|].
  rewrite Hload. unfold execute. unfold_M.
  pose proof (for_each_memory_kept ws (start_state mem) Hws) as Hm.
  destruct (for_each exec_instr ws (start_state mem)) as [[] s1|err s1]; simpl in Hm;
    [|exact Hm].
  pose proof (dump_memory_state (range s e) ∅ s1) as Hd.
  destruct (dump_memory (range s e) ∅ s1) as [d s2|err s2]; simpl in Hd; subst s2;
    exact Hm.
Qed.

Lemma X20_no_write_opcode_keeps_memory_witness :
  halt_memory (state_of
    (interpreter (<[3%nat := 7]> initial_memory) (Some [x4a; x18; x00; x00]%byte) 0 4))
  = <[3%nat := 7]> initial_memory.
Proof.
  apply (X20_no_write_opcode_keeps_memory _ _ [encode 10 2 3]);
    [reflexivity | repeat constructor; vm_compute; congruence].
Defined.

Section Width.

#[local] Arguments String.append : simpl nomatch.

Lemma length_append_string (a b : string) :
  String.length (a +:+ b) = (String.length a + String.length b)%nat.
Proof. induction a as [|x a IH]; [reflexivity|]. cbn. rewrite IH. reflexivity. Qed.

Lemma hex_go_length (fuel : nat) (n : Z) (acc : string) (k : nat) :
  (0 < k <= fuel)%nat -> 0 <= n < 16 ^ Z.of_nat k ->
  (String.length acc < String.length (Fmt.hex_go fuel n acc)
                     <= k + String.length acc)%nat.
Proof.
  revert n acc k. induction fuel as [|fuel IH]; intros n acc k Hk Hn; [lia|].
  cbn [Fmt.hex_go]. destruct (Z.eqb_spec (n / 16) 0) as [Hz|Hnz].
  - cbn [String.length]. lia.
  - assert (Hq : 0 <= n / 16 < 16 ^ Z.of_nat (k - 1)).
    { split; [apply Z.div_pos; lia|].
      apply Z.div_lt_upper_bound; [lia|].
      replace (Z.of_nat k) with (Z.succ (Z.of_nat (k - 1))) in Hn by lia.
      rewrite Z.pow_succ_r in Hn by lia. lia. }
    assert (Hk1 : (0 < k - 1)%nat).
    { destruct (k - 1)%nat; [|lia]. simpl in Hq. lia. }
    specialize (IH (n / 16) (String (Fmt.hex_digit (n mod 16)) acc) (k - 1)%nat
                  ltac:(lia) Hq).
    cbn [String.length] in IH. lia.
Qed.

Lemma format_0X_width (width : nat) (z : Z) :
  (0 < width)%nat -> 0 <= z < 16 ^ Z.of_nat width ->
  String.length (Fmt.format_0X width z) = width.
Proof.
  intros Hw Hz. unfold Fmt.format_0X.
  destruct (Z.ltb_spec z 0); [lia|]. unfold Fmt.zfill, Fmt.hex.
  assert (Hlen : (0 < String.length
                        (Fmt.hex_go (S (Z.to_nat (Z.log2 z))) z EmptyString) <= width)%nat).
  { destruct (Nat.le_gt_cases width (S (Z.to_nat (Z.log2 z)))) as [Hle|Hgt].
    - pose proof (hex_go_length (S (Z.to_nat (Z.log2 z))) z EmptyString width
                    ltac:(lia) Hz) as Hl.
      cbn [String.length] in Hl. lia.
    - assert (Hz' : 0 <= z < 16 ^ Z.of_nat (S (Z.to_nat (Z.log2 z)))).
      { split; [lia|].
        destruct (Z.eq_dec z 0) as [->|Hz0]; [reflexivity|].
        pose proof (Z.log2_spec z ltac:(lia)) as [_ Hlt].
        pose proof (Z.log2_nonneg z) as Hl.
        rewrite Nat2Z.inj_succ, Z2Nat.id by lia.
        eapply Z.lt_le_trans; [exact Hlt|].
        change 16 with (2 ^ 4). rewrite <- Z.pow_mul_r by lia.
        apply Z.pow_le_mono_r; lia. }
      pose proof (hex_go_length (S (Z.to_nat (Z.log2 z))) z EmptyString
                    (S (Z.to_nat (Z.log2 z))) ltac:(lia) Hz') as Hl.
      cbn [String.length] in Hl. lia. }
  rewrite length_append_string.
  assert (Hzeros : forall m, String.length (Fmt.zeros m) = m).
  { induction m as [|m IHm]; [reflexivity|]. cbn. rewrite IHm. reflexivity. }
  rewrite Hzeros. lia.
Qed.

End Width.

(** X21: the rendering of a word below 2^32 in the log is [0x] and
    exactly 8 hexadecimal digits, and the key of an address below 65536
    in the memory entry of a result, so of every address of the
    1024-cell memory, is [0x] and exactly 4 digits. *)
Theorem X21_fixed_width_rendering (z : Z) :
  (0 <= z < 2 ^ 32 -> String.length (render z) = 10%nat) /\
  (0 <= z < 65536 -> String.length (address_key z) = 6%nat).
Proof.
  split; intros Hz.
  - unfold render. change ("0x" +:+ Fmt.format_0X 8 z)
      with (String "0" (String "x" (Fmt.format_0X 8 z))).
    cbn [String.length]. rewrite format_0X_width; [reflexivity | lia |].
    change (16 ^ Z.of_nat 8) with (2 ^ 32). exact Hz.
  - unfold address_key. change ("0x" +:+ Fmt.format_0X 4 z)
      with (String "0" (String "x" (Fmt.format_0X 4 z))).
    cbn [String.length]. rewrite format_0X_width; [reflexivity | lia |].
    change (16 ^ Z.of_nat 4) with 65536. exact Hz.
Qed.

Lemma X21_fixed_width_rendering_witness :
  String.length (render 10246) = 10%nat /\ String.length (address_key 10) = 6%nat.
Proof.
  destruct (X21_fixed_width_rendering 10246) as (Hr & _).
  destruct (X21_fixed_width_rendering 10) as (_ & Ha).
  split; [apply Hr | apply Ha]; lia.
Defined.

(** ** What [int(_, 16)] accepts *)

Section Numerals.

#[local] Arguments String.append : simpl nomatch.

Lemma hex_value_read (c : ascii) (d : Z) :
  hex_value c = Some d ->
  int_space c = false /\ Ascii.eqb c "_" = false /\ Ascii.eqb c "+" = false /\
  Ascii.eqb c "-" = false /\ Ascii.eqb c "x" = false /\ Ascii.eqb c "X" = false /\
  tolerated c = true.
Proof.
  destruct c as [[] [] [] [] [] [] [] []]; vm_compute; intros H; try discriminate H;
    repeat split.
Qed.

Lemma all_hex_no_space (s : string) :
  all_hex s = true -> all_chars (fun c => negb (int_space c)) s = true.
Proof.
  induction s as [|c s IH]; [reflexivity|]. cbn [all_hex all_chars].
  destruct (hex_value c) as [d|] eqn:Hc; [|discriminate].
  destruct (hex_value_read c d Hc) as (-> & _). intros Hs. rewrite (IH Hs). reflexivity.
Qed.

Lemma all_hex_digits_go (s : string) (a : Z) :
  all_hex s = true -> exists n, digits_go s a false = Some n.
Proof.
  revert a. induction s as [|c s IH]; intros a; [eexists; reflexivity|].
  cbn [all_hex digits_go].
  destruct (hex_value c) as [d|] eqn:Hc; [|discriminate].
  destruct (hex_value_read c d Hc) as (_ & -> & _). intros Hs. apply IH. exact Hs.
Qed.

(** Every numeral in the plain sense is accepted. *)
Lemma int16_hex_numeral (s : string) :
  hex_numeral s = true -> exists n, int16 s = Some n.
Proof.
  destruct s as [|c s]; [discriminate|]. unfold hex_numeral. intros Hall.
  pose proof Hall as Hall'. cbn [all_hex] in Hall'.
  destruct (hex_value c) as [d|] eqn:Hc; [|discriminate].
  destruct (hex_value_read c d Hc) as (_ & Hus & Hplus & Hminus & _).
  destruct (all_hex_digits_go (String c s) 0 Hall) as (n & Hn).
  assert (Hdig : digits (String c s) = Some n).
  { unfold digits. rewrite Hus. exact Hn. }
  exists n. unfold int16. rewrite (strip_no_space _ (all_hex_no_space _ Hall)).
  rewrite Hplus, Hminus.
  destruct s as [|x r].
  - rewrite Hdig. simpl. f_equal; lia.
  - cbn [all_hex] in Hall'. destruct (hex_value x) as [dx|] eqn:Hx; [|discriminate].
    destruct (hex_value_read x dx Hx) as (_ & _ & _ & _ & -> & -> & _).
    rewrite andb_false_r. cbn [orb]. rewrite Hdig. simpl. f_equal; lia.
Qed.









(** A rejected line is one the specification calls malformed. *)
Lemma rejected_malformed_by_spec (line : string) :
  rejected line = true -> malformed_by_spec line = true.
Proof.
  unfold rejected, malformed_by_spec.
  rewrite !andb_true_iff, !orb_true_iff. intros [Hblank [Hlen|Htok]].
  - auto.
  - split; [exact Hblank|]. right.
    rewrite <- (take_drop 3 (split line)), existsb_app.
    apply orb_true_iff. left.
    apply existsb_exists in Htok as (tok & Hin & Htok).
    apply existsb_exists. exists tok. split; [exact Hin|].
    unfold numeral_token in Htok.
    destruct (hex_numeral (slice_from 2 tok)) eqn:Hh; [|reflexivity].
    destruct (int16_hex_numeral _ Hh) as (n & Hn). rewrite Hn in Htok. discriminate.
Qed.


End Numerals.

(** ** Theorems on the assembler *)


(** A token with a sign after its prefix is no numeral in the plain
    sense, yet [int(_, 16)] reads it: the line is no parse error, its
    negative word is refused by [struct.pack] once the binary file is
    open. *)
Example signed_token_is_no_parse_error :
  malformed_by_spec "0x-6 0x00 0x00" = true /\
  rejected "0x-6 0x00 0x00" = false /\
  assembler (Some ["0x-6 0x00 0x00"%string]) no_outputs =
    Raised struct_error {| binary_file := Some []; log_file := None |}.
Proof. repeat split; vm_compute; reflexivity. Qed.



(** ** The record of a register after its instruction *)

(** C5: when the body of the loop returns on a word with register
    field B, the result dictionary is the earlier one with the entry
    of register B set to the value the register list holds at place B
    after the instruction; the entries of other registers are kept.
    After a load of a constant that value is the operand; for opcode 25
    and for an unrecognised opcode it is the unchanged content of the
    register, and an unrecognised opcode leaves registers and memory as
    they were. *)
Theorem C5_snapshot_records_register (st st' : vm) (instr A B C : Z) :
  extract_fields instr = (A, B, C) ->
  exec_instr instr st = Returned tt st' ->
  exists v,
    0 <= B < 64 /\
    register st' !! Z.to_nat B = Some v /\
    getitem (register st') B = Some v /\
    result st' = <[register_key B := VInt v]> (result st) /\
    result st' !! register_key B = Some (VInt v) /\
    (forall B', B' <> B ->
       result st' !! register_key B' = result st !! register_key B') /\
    (A = 6 -> v = C) /\
    (A <> 6 -> A <> 8 -> A <> 10 ->
       register st' = register st /\ register st !! Z.to_nat B = Some v) /\
    (A <> 6 -> A <> 8 -> A <> 25 -> A <> 10 ->
       register st' = register st /\ memory st' = memory st /\
       getitem (register st) B = Some v).
Proof.
  intros Hf Hex.
  pose proof (register_field_range instr) as HB. rewrite Hf in HB. simpl in HB.
  rewrite (exec_instr_fields st instr A B C Hf) in Hex.
  unfold_M.
  destruct (dispatch A B C (reached st (A, B, C))) as [[] s2|e s2] eqn:Hd;
    [|discriminate].
  apply record_register_returned in Hex as (v & Hg & ->).
  pose proof (dispatch_returned _ _ _ _ _ Hd) as (Hres & _ & _ & _ & Hsame).
  pose proof (getitem_nonneg _ _ _ (proj1 HB) Hg) as Hl.
  exists v. simpl. rewrite Hres. simpl.
  split; [exact HB|]. split; [exact Hl|]. split; [exact Hg|].
  split; [reflexivity|]. split; [apply lookup_insert_eq|]. split; [|split; [|split]].
  - intros B' HB'. apply lookup_insert_ne.
    intros Hk. apply register_key_inj in Hk. congruence.
  - intros ->. revert Hd. unfold dispatch. rewrite Z.eqb_refl.
    unfold set_register.
    destruct (setitem (register (reached st (6, B, C))) B C) as [r|] eqn:Hset;
      [|discriminate].
    intros [= <-]. simpl in Hl.
    apply (setitem_nonneg _ _ _ _ (proj1 HB)) in Hset. subst r.
    pose proof (lookup_lt_Some _ _ _ Hl) as Hlt. rewrite length_insert in Hlt.
    rewrite list_lookup_insert_eq in Hl by exact Hlt. congruence.
  - intros H6 H8 H10.
    assert (Hreg : register s2 = register st).
    { revert Hd. unfold dispatch, get_register, set_memory. unfold_M.
      destruct (Z.eqb_spec A 6); [contradiction|].
      destruct (Z.eqb_spec A 8); [contradiction|].
      destruct (Z.eqb_spec A 25).
      - destruct (getitem (register (reached st (A, B, C))) B); [|discriminate].
        destruct (setitem (memory (reached st (A, B, C))) C z); [|discriminate].
        intros [= <-]. reflexivity.
      - destruct (Z.eqb_spec A 10); [contradiction|]. intros [= <-]. reflexivity. }
    split; [exact Hreg|]. rewrite <- Hreg. exact Hl.
  - intros H6 H8 H25 H10. specialize (Hsame H6 H8 H25 H10). subst s2.
    split; [reflexivity|]. split; [reflexivity|]. exact Hg.
Qed.

Lemma C5_snapshot_records_register_witness :
  exists st', exec_instr (encode 6 3 5) (start_state initial_memory) = Returned tt st' /\
    register st' !! 3%nat = Some 5 /\
    result st' !! register_key 3 = Some (VInt 5).
Proof.
  assert (Hex : exec_instr (encode 6 3 5) (start_state initial_memory) =
                Returned tt {| register := <[3%nat := 5]> (replicate 64 0);
                               memory := initial_memory;
                               result := {[ register_key 3 := VInt 5 ]};
                               dispatched := [(6, 3, 5)] |})
    by (vm_compute; reflexivity).
  destruct (C5_snapshot_records_register _ _ (encode 6 3 5) 6 3 5 eq_refl Hex)
    as (v & _ & Hreg & _ & _ & Hres & _ & H6 & _).
  rewrite (H6 eq_refl) in Hreg, Hres.
  eexists. split; [exact Hex|]. split; [exact Hreg | exact Hres].
Defined.

(** The same on a register that holds 7 and an opcode that is not
    recognised: the record is the 7 the register keeps. *)
Example unrecognised_opcode_records_register :
  exists st',
    exec_instr (encode 31 3 0)
      {| register := <[3%nat := 7]> (replicate 64 0); memory := initial_memory;
         result := {[ register_key 3 := VInt 1 ]}; dispatched := [] |}
    = Returned tt st' /\
    register st' = <[3%nat := 7]> (replicate 64 0) /\
    result st' !! register_key 3 = Some (VInt 7).
Proof. eexists. split; [vm_compute; reflexivity|]. split; vm_compute; reflexivity. Qed.
